(** * ArenaEnv: a polygonal arena with a ray-cast retina

    A shallow embedding of [src/simulator.py] (class [ArenaEnv]) and the
    properties of its [step] operation.

    The program computes with IEEE-754 binary64 numbers (Python [float],
    [numpy.float64]); they are embedded as Rocq's primitive floats, so every
    [+ - * /], comparison and square root below is the machine operation.
    What the program takes from libraries is modelled in two modules:
    - [Py]: the numeric conventions of Python and numpy the code relies on
      (the float [%] operator, the cast [astype(int)], 64-bit wrap-around);
    - [Shapely]: the geometry objects of the shapely library ([Polygon],
      [Point], [LineString]) with [contains] as exact point location.
    The transcendental functions of the platform's mathematical library
    ([cos], [sin], [arctan2]) and the overlay routine behind
    [LinearRing.intersection] are not re-implemented: the embedding takes
    them as parameters, and every theorem holds whatever they compute. *)

From Stdlib Require Import ZArith Floats Bool Lia.
From stdpp Require Import base list.

#[local] Open Scope Z_scope.

(** ** Python and numpy numerics *)

Module Py.

(** Exceptions that can leave the modelled code. *)
Inductive exn : Set :=
| ZeroDivisionError
| ValueError
| NotImplementedError
| IndexError
| OverflowError
| GEOSException.

(** A computation that either raises or returns. *)
Definition result (A : Type) : Type := exn + A.
Definition raise {A : Type} (e : exn) : result A := inl e.
Definition ret {A : Type} (a : A) : result A := inr a.
Definition bind {A B : Type} (m : result A) (k : A -> result B) : result B :=
  match m with
  | inl e => inl e
  | inr a => k a
  end.

(** [for x in l: f x], stopping at the first exception. *)
Fixpoint mapM {A B : Type} (f : A -> result B) (l : list A) : result (list B) :=
  match l with
  | [] => ret []
  | a :: l' => bind (f a) (fun b => bind (mapM f l') (fun bs => ret (b :: bs)))
  end.

(** [np.pi] and [2 * np.pi], as binary64 constants. *)
Definition pi : float := 0x1.921fb54442d18p+1%float.
Definition two_pi : float := (2 * pi)%float.

(** C's [fmod]: the exact remainder of the truncated division, carrying
    the sign of [x]. The remainder is computed on the integer mantissas
    brought to a common exponent, and is representable. *)
Definition fmod (x y : float) : float :=
  match Prim2SF x, Prim2SF y with
  | S754_finite sx mx ex, S754_finite _ my ey =>
      if (abs x <? abs y)%float then x
      else
        let e := Z.min ex ey in
        let r := Z.rem (Zpos mx * 2 ^ (ex - e)) (Zpos my * 2 ^ (ey - e)) in
        if r =? 0 then (if sx then neg_zero else zero)
        else SF2Prim (binary_normalize prec emax (if sx then - r else r) e false)
  | S754_zero _, S754_finite _ _ _ => x
  | S754_zero _, S754_infinity _ => x
  | S754_finite _ _ _, S754_infinity _ => x
  | _, _ => nan
  end.

(** [copysign(0.0, w)]. *)
Definition copysign_zero (w : float) : float :=
  if get_sign w then neg_zero else zero.

(** The float remainder [v % w] of Python ([float_rem]) and of numpy
    ([npy_divmod]) for a non-zero modulus: [fmod], moved by one modulus
    when its sign differs from the modulus's. *)
Definition mod_ (v w : float) : float :=
  let m := fmod v w in
  if (m =? 0)%float then copysign_zero w
  else if is_nan m then m
  else if xorb (w <? 0)%float (m <? 0)%float then (m + w)%float
  else m.

(** Signed 64-bit integers, the element type of numpy's [int] arrays. *)
Definition int64_min : Z := - 2 ^ 63.
Definition int64_max : Z := 2 ^ 63 - 1.
Definition wrap64 (z : Z) : Z := (z + 2 ^ 63) mod 2 ^ 64 - 2 ^ 63.

(** Truncation toward zero of a finite float, as an integer. *)
Definition trunc (x : float) : option Z :=
  match Prim2SF x with
  | S754_zero _ => Some 0
  | S754_finite s m e =>
      let q := Z.shiftl (Zpos m) e in
      Some (if s then - q else q)
  | _ => None
  end.

(** [ndarray.astype(int)] on a float64 element: the C cast, which
    truncates toward zero; a NaN, an infinity or a value out of range
    gives the "integer indefinite" value [int64_min] (x86-64). *)
Definition astype_int (x : float) : Z :=
  match trunc x with
  | Some t => if (int64_min <=? t) && (t <=? int64_max) then t else int64_min
  | None => int64_min
  end.

(** An integer index used in float arithmetic. *)
Definition of_int (n : nat) : float :=
  of_uint63 (Uint63.of_Z (Z.of_nat n)).

(** [1 * flag] stored into a float array. *)
Definition of_bool (b : bool) : float := if b then 1%float else 0%float.

(** [np.linalg.norm] of a 2-vector. *)
Definition norm2 (dx dy : float) : float :=
  sqrt (dx * dx + dy * dy)%float.

End Py.

(** ** The shapely objects the simulator uses *)

Module Shapely.

Definition point : Type := float * float.

(** A ring of coordinates: the exterior of a [Polygon], first and last
    coordinate equal. *)
Definition ring : Type := list point.

(** What [LinearRing.intersection(LineString)] can return: a point, a
    line string (the empty one when the two do not meet) or a multi-part
    collection. *)
Inductive geometry : Type :=
| Point (x y : float)
| LineString (coords : list point)
| Collection.

(** The [.xy] property: the coordinate arrays of a [Point] or a
    [LineString] (none for an empty one); multi-part geometries do not
    provide it. *)
Definition xy (g : geometry) : Py.result (list float * list float) :=
  match g with
  | Point x y => Py.ret ([x], [y])
  | LineString cs => Py.ret (map fst cs, map snd cs)
  | Collection => Py.raise Py.NotImplementedError
  end.

Definition point_eqb (p q : point) : bool :=
  (p.1 =? q.1)%float && (p.2 =? q.2)%float.

(** The closing of a shell: the first coordinate is appended when the
    shell does not end where it starts, and always when it has exactly
    three coordinates. *)
Definition close_ring (cs : list point) : list point :=
  match cs, last cs with
  | p :: _, Some q =>
      if (length cs =? 3)%nat || negb (point_eqb p q) then cs ++ [p] else cs
  | _, _ => cs
  end.

(** [Polygon(coords)]: fewer than three coordinates make no ring
    ([ValueError]); the shell is closed; a closed shell whose ends still
    differ - a first coordinate with a NaN - is refused by GEOS. *)
Definition Polygon (cs : list point) : Py.result ring :=
  match cs with
  | [] => Py.ret []
  | p :: _ =>
      if (length cs <? 3)%nat then Py.raise Py.ValueError
      else
        let r := close_ring cs in
        match last r with
        | Some q => if point_eqb p q then Py.ret r else Py.raise Py.GEOSException
        | None => Py.ret r
        end
  end.

(** *** Exact coordinates

    Every finite binary64 number is an integer multiple of [2^-1074];
    locations are decided on these integers, without rounding. *)
Definition epoint : Type := Z * Z.

Definition exact (x : float) : option Z :=
  match Prim2SF x with
  | S754_zero _ => Some 0
  | S754_finite s m e =>
      let v := Zpos m * 2 ^ (e + 1074) in
      Some (if s then - v else v)
  | _ => None
  end.

Definition exact_point (p : point) : option epoint :=
  match exact p.1, exact p.2 with
  | Some x, Some y => Some (x, y)
  | _, _ => None
  end.

Fixpoint exact_ring (r : ring) : option (list epoint) :=
  match r with
  | [] => Some []
  | p :: r' =>
      match exact_point p, exact_ring r' with
      | Some q, Some qs => Some (q :: qs)
      | _, _ => None
      end
  end.

(** The consecutive coordinate pairs of a ring. *)
Fixpoint segments {A : Type} (r : list A) : list (A * A) :=
  match r with
  | a :: (b :: _) as r' => (a, b) :: segments r'
  | _ => []
  end.

(** Orientation of [q] relative to the directed line [p1 -> p2]:
    positive on the left, zero when collinear. *)
Definition orientation (p1 p2 q : epoint) : Z :=
  Z.sgn ((p2.1 - p1.1) * (q.2 - p1.2) - (p2.2 - p1.2) * (q.1 - p1.1)).

Inductive location : Set := Interior | Boundary | Exterior.

Inductive crossing : Set := OnSegment | Crosses | Misses.

(** One segment against the horizontal ray from [p] toward positive x
    (the ray-crossing count of the point-in-ring test). *)
Definition countSegment (p p1 p2 : epoint) : crossing :=
  if (p1.1 <? p.1) && (p2.1 <? p.1) then Misses
  else if (p.1 =? p2.1) && (p.2 =? p2.2) then OnSegment
  else if (p1.2 =? p.2) && (p2.2 =? p.2) then
    if (Z.min p1.1 p2.1 <=? p.1) && (p.1 <=? Z.max p1.1 p2.1)
    then OnSegment else Misses
  else if ((p.2 <? p1.2) && (p2.2 <=? p.2)) || ((p.2 <? p2.2) && (p1.2 <=? p.2)) then
    let o := orientation p1 p2 p in
    if o =? 0 then OnSegment
    else
      let o := if p2.2 <? p1.2 then - o else o in
      if 0 <? o then Crosses else Misses
  else Misses.

Fixpoint locate_loop (p : epoint) (segs : list (epoint * epoint)) (count : nat)
  : location :=
  match segs with
  | [] => if Nat.odd count then Interior else Exterior
  | (p1, p2) :: segs' =>
      match countSegment p p1 p2 with
      | OnSegment => Boundary
      | Crosses => locate_loop p segs' (S count)
      | Misses => locate_loop p segs' count
      end
  end.

Definition locate (r : list epoint) (p : epoint) : location :=
  locate_loop p (segments r) 0.

Definition location_eqb (a b : location) : bool :=
  match a, b with
  | Interior, Interior | Boundary, Boundary | Exterior, Exterior => true
  | _, _ => false
  end.

(** [polygon.contains(Point(p))]: true exactly when [p] lies in the
    interior of the polygon; a point with a NaN or infinite coordinate is
    contained in nothing. *)
Definition contains (walls : ring) (p : point) : bool :=
  match exact_ring walls, exact_point p with
  | Some r, Some q => location_eqb (locate r q) Interior
  | _, _ => false
  end.

(** *** The boundary, stated geometrically *)

(** [q] lies on the closed segment from [p1] to [p2]. *)
Definition on_segment (p1 p2 q : epoint) : Prop :=
  (p2.1 - p1.1) * (q.2 - p1.2) - (p2.2 - p1.2) * (q.1 - p1.1) = 0
  /\ Z.min p1.1 p2.1 <= q.1 <= Z.max p1.1 p2.1
  /\ Z.min p1.2 p2.2 <= q.2 <= Z.max p1.2 p2.2.

(** [p] lies on the boundary of the polygon: on one of the segments of
    its ring. *)
Definition on_boundary (walls : ring) (p : point) : Prop :=
  exists r q s,
    exact_ring walls = Some r /\ exact_point p = Some q
    /\ s ∈ segments r /\ on_segment s.1 s.2 q.

(** A ring is closed when it ends where it starts. *)
Definition closed {A : Type} (r : list A) : Prop :=
  exists a, head r = Some a /\ last r = Some a.

(** [ring_closed walls]: the exterior, read exactly, ends where it
    starts. *)
Definition ring_closed (walls : ring) : Prop :=
  forall r, exact_ring walls = Some r -> closed r.

End Shapely.

(** ** The simulator object *)

Import Py Shapely.

(** A 2-D float array, stored by rows. *)
Abbreviation matrix := (list (list float)).

(** [np.zeros((h, w))]. *)
Definition zeros (dims : nat * nat) : matrix :=
  replicate dims.1 (replicate dims.2 0%float).

(** [m[r, c] = v] for indices inside the array. *)
Definition set2 (r c : nat) (v : float) (m : matrix) : matrix :=
  alter (fun row => <[c := v]> row) r m.

(** [m[:, c] = col]. *)
Definition set_col (c : nat) (col : nat -> float) (m : matrix) : matrix :=
  imap (fun r row => <[c := col r]> row) m.

(** [m[r, c]], when inside the array. *)
Definition get2 (m : matrix) (r c : nat) : option float :=
  m !! r ≫= fun row => row !! c.

(** The shape [(h, w)] of an array: [h] rows, each of [w] entries. *)
Definition has_shape (dims : nat * nat) (m : matrix) : Prop :=
  length m = dims.1 /\ Forall (fun row => length row = dims.2) m.

(** Every entry is [0.0] or [1.0]. *)
Definition binary (m : matrix) : Prop :=
  Forall (Forall (fun x => x = 0%float \/ x = 1%float)) m.

(** The attributes of an [ArenaEnv] instance. [agent_position],
    [agent_direction] and [retina] are the mutable ones. *)
Record ArenaEnv : Type := mkArenaEnv {
  wall_dist : float;
  wall_height : float;
  num_walls : nat;
  retina_dims : nat * nat;
  retina : matrix;
  retina_pov_horizon : Z;
  retina_scale : float;
  agent_position : point;
  agent_height : float;
  agent_view_angle : float;
  agent_pov_dist : float;
  agent_direction : float;
  walls : ring
}.

(** The retina of an object has the configured shape and binary entries. *)
Definition retina_ok (self : ArenaEnv) : Prop :=
  has_shape (retina_dims self) (retina self) /\ binary (retina self).

Definition set_pose (self : ArenaEnv) (d : float) (p : point) : ArenaEnv :=
  mkArenaEnv self.(wall_dist) self.(wall_height) self.(num_walls)
    self.(retina_dims) self.(retina) self.(retina_pov_horizon)
    self.(retina_scale) p self.(agent_height) self.(agent_view_angle)
    self.(agent_pov_dist) d self.(walls).

Definition set_direction (self : ArenaEnv) (d : float) : ArenaEnv :=
  set_pose self d self.(agent_position).

Definition set_retina (self : ArenaEnv) (m : matrix) : ArenaEnv :=
  mkArenaEnv self.(wall_dist) self.(wall_height) self.(num_walls)
    self.(retina_dims) m self.(retina_pov_horizon)
    self.(retina_scale) self.(agent_position) self.(agent_height)
    self.(agent_view_angle) self.(agent_pov_dist) self.(agent_direction)
    self.(walls).

(** The arguments of the constructor. *)
Record config : Type := mkConfig {
  cfg_wall_dist : float;
  cfg_wall_height : float;
  cfg_num_walls : Z;
  cfg_retina_dims : Z * Z;
  cfg_retina_scale : float;
  cfg_retina_pov_horizon : Z;
  cfg_agent_height : float;
  cfg_agent_view_angle : float;
  cfg_agent_pov_dist : float
}.

(** The constructor's default arguments. *)
Definition default_config : config :=
  mkConfig 5 1 4 (50, 80)%Z 0x1.0624dd2f1a9fcp-7 20 0.5 (1.5 * pi) 0.5.

(** The platform's [cos], [sin] and [arctan2]. *)
Class Libm : Type := {
  cos : float -> float;
  sin : float -> float;
  arctan2 : float -> float -> float
}.

(** The overlay behind [ring.intersection(LineString([a, b]))]: it
    returns a geometry, or none when GEOS raises ([GEOSException]). *)
Class Geos : Type := {
  intersection : ring -> point * point -> option geometry
}.

Section Simulator.

Context {libm : Libm} {geos : Geos}.

#[local] Open Scope float_scope.

(** [__init__], lines 48-58: the angles of the wall corners, the first
    one repeated at the end, for [n > 0] walls. *)
Definition wall_angles (n : nat) : list float :=
  let wall_view_angle := two_pi / of_int n in
  let angles := map (fun i => wall_view_angle * of_int i) (seq 0 n) in
  let angles := angles ++ take 1 angles in
  map (fun a => a - wall_view_angle / 2) angles.

(** [__init__], lines 61-68: the coordinates handed to [Polygon]. *)
Definition wall_coords (c : config) : list point :=
  map (fun a => (c.(cfg_wall_dist) * cos a, c.(cfg_wall_dist) * sin a))
    (wall_angles (Z.to_nat c.(cfg_num_walls))).

(** [ArenaEnv.__init__]. [np.zeros] refuses a negative dimension; dividing
    by [num_walls = 0] raises; a negative [num_walls] leaves no angle to
    repeat ([angles[0]]); then [Polygon] may refuse the coordinates. *)
Definition init (c : config) : Py.result ArenaEnv :=
  if ((c.(cfg_retina_dims).1 <? 0) || (c.(cfg_retina_dims).2 <? 0))%Z
  then raise ValueError
  else if (c.(cfg_num_walls) =? 0)%Z then raise ZeroDivisionError
  else if (c.(cfg_num_walls) <? 0)%Z then raise IndexError
  else
    let dims := (Z.to_nat c.(cfg_retina_dims).1, Z.to_nat c.(cfg_retina_dims).2) in
    bind (Polygon (wall_coords c))
      (fun w =>
         ret (mkArenaEnv c.(cfg_wall_dist) c.(cfg_wall_height)
                (Z.to_nat c.(cfg_num_walls)) dims (zeros dims)
                c.(cfg_retina_pov_horizon) c.(cfg_retina_scale) (0, 0)
                c.(cfg_agent_height) c.(cfg_agent_view_angle)
                c.(cfg_agent_pov_dist) 0 w)).

(** [ArenaEnv.find_angle]. *)
Definition find_angle (p1 p2 : point) : float :=
  let dx := p2.1 - p1.1 in
  let dy := p2.2 - p1.2 in
  mod_ (arctan2 dy dx) two_pi.

(** *** [step], lines 104-114: the motion update *)

Definition new_direction (self : ArenaEnv) (direction : float) : float :=
  self.(agent_direction) + direction.

Definition new_position (self : ArenaEnv) (speed direction : float) : point :=
  (self.(agent_position).1 + speed * cos (new_direction self direction),
   self.(agent_position).2 + speed * sin (new_direction self direction)).

Definition move (self : ArenaEnv) (speed direction : float) : ArenaEnv :=
  let self :=
    if contains self.(walls) (new_position self speed direction)
    then set_pose self (new_direction self direction)
           (new_position self speed direction)
    else self in
  set_direction self (mod_ self.(agent_direction) two_pi).

(** *** [step], lines 115-165: bearings, rays and distances *)

Definition width (self : ArenaEnv) : nat := self.(retina_dims).2.
Definition height (self : ArenaEnv) : nat := self.(retina_dims).1.

Definition angle_increment (self : ArenaEnv) : float :=
  self.(agent_view_angle) / of_int (width self).

(** The arena's vertices: the exterior without its closing coordinate. *)
Definition vertices (self : ArenaEnv) : list point :=
  removelast self.(walls).

Definition agent_edge_directions (self : ArenaEnv) : list float :=
  map (fun edge =>
         mod_ (find_angle self.(agent_position) edge - angle_increment self)
           two_pi)
    (vertices self).

Definition ray_angle (self : ArenaEnv) (i : nat) : float :=
  - self.(agent_view_angle) / 2 + of_int i * angle_increment self
  + angle_increment self / 2 + self.(agent_direction).

Definition max_fov_distance (self : ArenaEnv) : float := 2 * self.(wall_dist).

Definition ray (self : ArenaEnv) (i : nat) : point * point :=
  let a := ray_angle self i in
  (self.(agent_position),
   (self.(agent_position).1 + max_fov_distance self * cos a,
    self.(agent_position).2 + max_fov_distance self * sin a)).

(** [np.linalg.norm(np.hstack(g.xy) - position)]; the subtraction
    broadcasts an array of one or two entries against the position and
    fails on any other length. *)
Definition distance (self : ArenaEnv) (g : geometry) : Py.result float :=
  bind (xy g) (fun c =>
    match c.1 ++ c.2 with
    | [x; y] =>
        ret (norm2 (x - self.(agent_position).1) (y - self.(agent_position).2))
    | [x] =>
        ret (norm2 (x - self.(agent_position).1) (x - self.(agent_position).2))
    | _ => raise ValueError
    end).

(** Lines 155-157: the intersections of all rays, computed before any
    distance. *)
Definition intersect (self : ArenaEnv) (i : nat) : Py.result geometry :=
  match intersection self.(walls) (ray self i) with
  | Some g => ret g
  | None => raise GEOSException
  end.

Definition intersections (self : ArenaEnv) : Py.result (list geometry) :=
  mapM (intersect self) (seq 0 (width self)).

Definition distances (self : ArenaEnv) : Py.result (list float) :=
  bind (intersections self) (mapM (distance self)).

(** *** [step], lines 167-178: vertical projection *)

Definition pov_base (self : ArenaEnv) (d : float) : float :=
  self.(agent_height) / d * self.(agent_pov_dist).

Definition pov_height (self : ArenaEnv) (d : float) : float :=
  (self.(wall_height) - self.(agent_height)) / d * self.(agent_pov_dist).

(** The floor row [b] and the ceiling row [h] of a column whose ray met
    the wall at distance [d]. *)
Definition row_b (self : ArenaEnv) (d : float) : Z :=
  wrap64 (self.(retina_pov_horizon)
          - astype_int (pov_base self d / self.(retina_scale))).

Definition row_h (self : ArenaEnv) (d : float) : Z :=
  wrap64 (self.(retina_pov_horizon)
          + astype_int (pov_height self d / self.(retina_scale))).

(** Lines 177-178 add the horizon, a Python integer, to arrays of 64-bit
    integers: numpy raises [OverflowError] when it does not fit. *)
Definition horizon_fits (self : ArenaEnv) : bool :=
  ((int64_min <=? self.(retina_pov_horizon))
   && (self.(retina_pov_horizon) <=? int64_max))%Z.

(** *** [step], lines 180-190: the floor and ceiling pixels *)

Definition valid (self : ArenaEnv) (r : Z) : bool :=
  ((0 <=? r) && (r <? Z.of_nat (height self)))%Z.

(** [retina[rows[valid], indices[valid]] = 1]. *)
Definition mark (self : ArenaEnv) (rows : list Z) (m : matrix) : matrix :=
  foldl (fun m ir => if valid self ir.2 then set2 (Z.to_nat ir.2) ir.1 1 m else m)
    m (zip (seq 0 (length rows)) rows).

(** *** [step], lines 192-233: the corner overlay *)

Definition lower_bound (self : ArenaEnv) (i : nat) : float :=
  mod_ (ray_angle self i - angle_increment self / 2) two_pi.

Definition upper_bound (self : ArenaEnv) (i : nat) : float :=
  mod_ (ray_angle self i + angle_increment self / 2) two_pi.

(** One entry of the matrix [edges]. *)
Definition edge (self : ArenaEnv) (i : nat) (ad : float) : bool :=
  (lower_bound self i <? ad) && (ad <? upper_bound self i).

(** [np.where(edges)[0]]: the column of every true entry, row by row. *)
Definition edges_in_retina (self : ArenaEnv) : list nat :=
  flat_map (fun i =>
              flat_map (fun ad => if edge self i ad then [i] else [])
                (agent_edge_directions self))
    (seq 0 (width self)).

(** One entry of the matrix [inner_wall]. *)
Definition inner_wall (b h : list Z) (r e : nat) : bool :=
  match b !! e, h !! e with
  | Some be, Some he => ((be <? Z.of_nat r) && (Z.of_nat r <? he))%Z
  | _, _ => false
  end.

(** [for e in edges_in_retina: retina[:, e] = 1 * inner_wall[:, e]]. *)
Definition overlay (b h : list Z) (es : list nat) (m : matrix) : matrix :=
  foldl (fun m e => set_col e (fun r => of_bool (inner_wall b h r e)) m) m es.

(** *** [step], lines 167-233 together: the retina drawn from the
    distances of the rays *)
Definition render (self : ArenaEnv) (ds : list float) : matrix :=
  let b := map (row_b self) ds in
  let h := map (row_h self) ds in
  let m := mark self h (mark self b self.(retina)) in
  overlay b h (edges_in_retina self) m.

(** [self.retina *= 0]. *)
Definition clear (m : matrix) : matrix :=
  map (map (fun x => x * 0)) m.

(** *** [ArenaEnv.step]

    The result pairs the object after the call with what the call gives
    back: the retina, rows reversed, or the exception that leaves it. *)
Definition step (self : ArenaEnv) (speed direction : float)
  : ArenaEnv * Py.result matrix :=
  let self := move self speed direction in
  match width self with
  | O => (self, raise ZeroDivisionError)
  | S _ =>
      let self := set_retina self (clear self.(retina)) in
      match distances self with
      | inl e => (self, inl e)
      | inr ds =>
          if horizon_fits self then
            let m := render self ds in
            (set_retina self m, ret (reverse m))
          else (self, raise OverflowError)
      end
  end.

(** A sequence of [step] calls, the results dropped. *)
Definition run (self : ArenaEnv) (calls : list (float * float)) : ArenaEnv :=
  foldl (fun s c => (step s c.1 c.2).1) self calls.

End Simulator.

(** ** The rest of the class, and its graphical subclass *)

(** [ArenaEnv.reset]: the body is [pass]. *)
Definition reset (self : ArenaEnv) : ArenaEnv := self.

(** A [GraphArena] instance: the simulator it extends and the data held
    by the artists its [step] redraws - the image [g_retina], the marker
    [g_agent] and the line [g_agent_nose] (its x and y data). *)
Record GraphArena : Type := mkGraphArena {
  env : ArenaEnv;
  g_retina : matrix;
  g_agent : point;
  g_agent_nose : list float * list float
}.

Section Graphics.

Context {libm : Libm} {geos : Geos}.

#[local] Open Scope float_scope.

(** [GraphArena.__init__]: the simulator's constructor, then an image of
    zeros, the marker at the origin and a nose from [(0, 0)] to
    [(0.01, 0)]. *)
Definition graph_init (c : config) : Py.result GraphArena :=
  bind (init c)
    (fun e =>
       ret (mkGraphArena e (zeros e.(retina_dims)) (0, 0)
              ([0; 0x1.47ae147ae147bp-7], [0; 0]))).

(** [0.2 + 0.8 * self.retina]. *)
Definition shade (m : matrix) : matrix :=
  map (map (fun x => 0x1.999999999999ap-3 + 0x1.999999999999ap-1 * x)) m.

(** The agent's nose: from its position to 0.3 ahead of it. *)
Definition nose (e : ArenaEnv) : list float * list float :=
  let dx := 0x1.3333333333333p-2 * cos e.(agent_direction) in
  let dy := 0x1.3333333333333p-2 * sin e.(agent_direction) in
  ([e.(agent_position).1 + 0; e.(agent_position).1 + dx],
   [e.(agent_position).2 + 0; e.(agent_position).2 + dy]).

(** [GraphArena.step]: the simulator's step, its buffer dropped, then the
    artists redrawn from the object's attributes. An exception of the
    simulator's step leaves before any redrawing. *)
Definition graph_step (g : GraphArena) (speed direction : float)
  : GraphArena * Py.result unit :=
  let r := step g.(env) speed direction in
  match r.2 with
  | inl e => (mkGraphArena r.1 g.(g_retina) g.(g_agent) g.(g_agent_nose), inl e)
  | inr _ =>
      (mkGraphArena r.1 (shade r.1.(retina)) r.1.(agent_position) (nose r.1),
       ret tt)
  end.

End Graphics.

(** ** The retina, pixel by pixel *)

(** Column [c] has its row, one of [rows], at [r], inside the retina. *)
Definition marked (self : ArenaEnv) (rows : list Z) (r c : nat) : bool :=
  match rows !! c with
  | Some b => valid self b && bool_decide (Z.to_nat b = r)
  | None => false
  end.

(** The pixel of row [r] and column [i] of the retina drawn from the
    distances [ds]: in a corner column the entry of [inner_wall], in any
    other column the floor and ceiling marks. *)
Definition pixel {libm : Libm} (self : ArenaEnv) (ds : list float) (r i : nat)
  : bool :=
  let b := map (row_b self) ds in
  let h := map (row_h self) ds in
  if bool_decide (i ∈ edges_in_retina self)
  then inner_wall b h r i
  else marked self b r i || marked self h r i.

(** ** The order of binary64 numbers

    A key for each number that is not NaN, on which the comparison of
    floats is the lexicographic order: the class and sign first, then the
    exponent, then the mantissa. *)

Definition sf_key (f : spec_float) : option (Z * Z * Z) :=
  match f with
  | S754_nan => None
  | S754_infinity true => Some (-2, 0, 0)
  | S754_infinity false => Some (2, 0, 0)
  | S754_zero _ => Some (0, 0, 0)
  | S754_finite true m e => Some (-1, - e, - Zpos m)
  | S754_finite false m e => Some (1, e, Zpos m)
  end.

Definition key_lt (k1 k2 : Z * Z * Z) : Prop :=
  k1.1.1 < k2.1.1
  \/ (k1.1.1 = k2.1.1
      /\ (k1.1.2 < k2.1.2 \/ (k1.1.2 = k2.1.2 /\ k1.2 < k2.2))).

(** ** The row conversion as the specification words it

    "[b_i = horizon_row - round(pov_base / retina_scale)]", with [round]
    to the nearest integer (ties to even, as Python and numpy round). *)

Definition round_half_even (x : float) : option Z :=
  match Shapely.exact x with
  | Some X =>
      let q := (X / 2 ^ 1074)%Z in
      let r := (X mod 2 ^ 1074)%Z in
      Some (match (2 * r ?= 2 ^ 1074)%Z with
            | Lt => q
            | Gt => (q + 1)%Z
            | Eq => if Z.even q then q else (q + 1)%Z
            end)
  | None => None
  end.

Definition row_b_rounded (self : ArenaEnv) (d : float) : option Z :=
  match round_half_even (pov_base self d / self.(retina_scale)) with
  | Some t => Some (self.(retina_pov_horizon) - t)%Z
  | None => None
  end.

Definition row_h_rounded (self : ArenaEnv) (d : float) : option Z :=
  match round_half_even (pov_height self d / self.(retina_scale)) with
  | Some t => Some (self.(retina_pov_horizon) + t)%Z
  | None => None
  end.

(** ** The corner test as the specification words it

    "Column i is a corner column for vertex v if
    [lower_i < edge_dir_v < upper_i]", [edge_dir_v] being the bearing of
    the vertex from the agent's position, wrapped. *)

Definition corner_column_spec {libm : Libm} (self : ArenaEnv) (i : nat) (v : point)
  : bool :=
  edge self i (find_angle self.(agent_position) v).

(** ** A concrete run

    The arena built by [ArenaEnv(retina_dims=(50, 2), agent_view_angle=1.0)]
    and the calls made on it below. The library functions are given by the
    values they take on the arguments this run meets: glibc's [cos], [sin]
    and [atan2], and for each of the two rays the point where it crosses the
    wall (the exact crossing, rounded to binary64). *)

Module Sample.

#[local] Open Scope float_scope.

Fixpoint table (t : list (float * float)) (x : float) : float :=
  match t with
  | [] => nan
  | (k, v) :: t' => if k =? x then v else table t' x
  end.

Definition cos : float -> float :=
  table [ (0, 1);
          (-0x1.79ca10c924223p-67, 1);
          (0x1.921fb54442d18p+2, 1);
          (-0x1.921fb54442d18p-1, 0x1.6a09e667f3bcdp-1);
          (0x1.921fb54442d18p-1, 0x1.6a09e667f3bcdp-1);
          (0x1.2d97c7f3321d2p+1, -0x1.6a09e667f3bccp-1);
          (0x1.f6a7a2955385ep+1, -0x1.6a09e667f3bcep-1);
          (-0x1p-2, 0x1.f01549f7deea1p-1);
          (0x1p-2, 0x1.f01549f7deea1p-1);
          (-0x1.921fb54442d18p+0, 0x1.1a62633145c07p-54);
          (0x1.921fb54442d18p+0, 0x1.1a62633145c07p-54) ].

Definition sin : float -> float :=
  table [ (0, 0);
          (-0x1.79ca10c924223p-67, -0x1.79ca10c924223p-67);
          (0x1.921fb54442d18p+2, -0x1.1a62633145c07p-52);
          (-0x1.921fb54442d18p-1, -0x1.6a09e667f3bccp-1);
          (0x1.921fb54442d18p-1, 0x1.6a09e667f3bccp-1);
          (0x1.2d97c7f3321d2p+1, 0x1.6a09e667f3bcdp-1);
          (0x1.f6a7a2955385ep+1, -0x1.6a09e667f3bccp-1);
          (-0x1p-2, -0x1.faaeed4f31577p-3);
          (0x1p-2, 0x1.faaeed4f31577p-3);
          (-0x1.921fb54442d18p+0, -1);
          (0x1.921fb54442d18p+0, 1) ].

(** [arctan2 dy dx] toward each of the four vertices, seen from the
    origin. *)
Definition arctan2 (dy dx : float) : float :=
  if (dx <? 0) then
    if (dy <? 0) then -0x1.2d97c7f3321d3p+1 else 0x1.2d97c7f3321d2p+1
  else
    if (dy <? 0) then -0x1.921fb54442d18p-1 else 0x1.921fb54442d18p-1.

(** The crossing of a ray from the origin with the wall [x = 3.5355...],
    told apart by the side its far end lies on. *)
Definition intersection (_ : ring) (r : point * point) : option geometry :=
  if (r.2.2 <? 0) then Some (Point 0x1.c48c6001f0ac0p+1 (-0x1.ce37df40219e5p-1))
  else Some (Point 0x1.c48c6001f0ac0p+1 0x1.ce37df40219e5p-1).

(** An overlay that finds no crossing: the empty line string. *)
Definition no_intersection (_ : ring) (_ : point * point) : option geometry :=
  Some (LineString []).

Definition cfg : config :=
  mkConfig 5 1 4 (50, 2)%Z 0x1.0624dd2f1a9fcp-7 20 0.5 1 0.5.

(** The object [init cfg] returns. *)
Definition arena : ArenaEnv :=
  mkArenaEnv 5 1 4 (50%nat, 2%nat) (zeros (50%nat, 2%nat)) 20
    0x1.0624dd2f1a9fcp-7 (0, 0) 0.5 1 0.5 0
    [ (0x1.c48c6001f0ac0p+1, -0x1.c48c6001f0abfp+1);
      (0x1.c48c6001f0ac0p+1, 0x1.c48c6001f0abfp+1);
      (-0x1.c48c6001f0abfp+1, 0x1.c48c6001f0ac0p+1);
      (-0x1.c48c6001f0ac2p+1, -0x1.c48c6001f0abfp+1);
      (0x1.c48c6001f0ac0p+1, -0x1.c48c6001f0abfp+1) ].

Definition libm : Libm := Build_Libm cos sin arctan2.
Definition geos : Geos := Build_Geos intersection.
Definition no_geos : Geos := Build_Geos no_intersection.

Definition init := @init libm.
Definition step := @step libm geos.
Definition run := @run libm geos.

End Sample.

(** * Properties *)

(** ** Point location *)

Section Location.

Import Shapely.

#[local] Open Scope Z_scope.

Lemma countSegment_endpoint (q p1 : epoint) :
  countSegment q p1 q = OnSegment.
Proof.
  unfold countSegment.
  rewrite (Z.ltb_irrefl q.1), andb_false_r.
  by rewrite !Z.eqb_refl.
Qed.

(** A point of a closed segment is reported on it, unless it is the
    segment's start (which the preceding segment of the ring reports). *)
Lemma countSegment_on_segment (p1 p2 q : epoint) :
  on_segment p1 p2 q -> countSegment q p1 p2 = OnSegment \/ q = p1.
Proof.
  destruct p1 as [x1 y1], p2 as [x2 y2], q as [x y].
  unfold on_segment, countSegment, orientation; simpl.
  intros (Hc & Hx & Hy).
  destruct (Z.ltb_spec x1 x), (Z.ltb_spec x2 x); simpl; try lia.
  all: destruct (Z.eqb_spec x x2), (Z.eqb_spec y y2); simpl; auto.
  all: destruct (Z.eqb_spec y1 y), (Z.eqb_spec y2 y); simpl; try lia.
  all: try (destruct (Z.leb_spec (Z.min x1 x2) x),
              (Z.leb_spec x (Z.max x1 x2)); simpl; auto; lia).
  all: destruct (Z.ltb_spec y y1), (Z.leb_spec y2 y),
         (Z.ltb_spec y y2), (Z.leb_spec y1 y); simpl; try lia.
  all: try (rewrite Hc; simpl; auto).
  all: try (right; f_equal; nia).
  all: try nia.
Qed.

Lemma locate_loop_boundary (q : epoint) (segs : list (epoint * epoint)) (n : nat) :
  (exists s, s ∈ segs /\ countSegment q s.1 s.2 = OnSegment) ->
  locate_loop q segs n = Boundary.
Proof.
  revert n. induction segs as [|[p1 p2] segs IH]; intros n (s & Hin & Hs).
  - by apply elem_of_nil in Hin.
  - simpl. apply elem_of_cons in Hin as [->|Hin].
    + simpl in Hs. by rewrite Hs.
    + destruct (countSegment q p1 p2); eauto.
Qed.

Lemma elem_of_segments {A : Type} (r : list A) (a b : A) :
  (a, b) ∈ segments r <-> exists k, r !! k = Some a /\ r !! S k = Some b.
Proof.
  induction r as [|x [|y r] IH].
  - simpl. split; [intros H; by apply elem_of_nil in H | by intros (k & H & _)].
  - simpl. split; [intros H; by apply elem_of_nil in H |].
    intros (k & _ & H). by destruct k.
  - change (segments (x :: y :: r)) with ((x, y) :: segments (y :: r)).
    rewrite elem_of_cons, IH. split.
    + intros [Heq | (k & H1 & H2)].
      * injection Heq as -> ->. by exists 0%nat.
      * by exists (S k).
    + intros ([|k] & H1 & H2).
      * left. simpl in *. congruence.
      * right. by exists k.
Qed.

(** In a closed ring every start of a segment is the end of one. *)
Lemma segments_closed_pred {A : Type} (r : list A) (a b : A) :
  closed r -> (a, b) ∈ segments r -> exists z, (z, a) ∈ segments r.
Proof.
  intros (a0 & Hh & Hl) Hin.
  apply elem_of_segments in Hin as ([|k] & H1 & H2).
  - rewrite head_lookup, H1 in Hh. injection Hh as <-.
    rewrite last_lookup in Hl.
    apply lookup_lt_Some in H2 as Hlen.
    destruct (length r) as [|[|n]] eqn:E; try lia. simpl in Hl.
    destruct (lookup_lt_is_Some_2 r n) as [z Hz]; [lia|].
    exists z. apply elem_of_segments. by exists n.
  - apply lookup_lt_Some in H1 as Hlen.
    destruct (lookup_lt_is_Some_2 r k) as [z Hz]; [lia|].
    exists z. apply elem_of_segments. by exists k.
Qed.

(** Exact location puts every boundary point of a closed ring on the
    boundary. *)
Lemma locate_on_boundary (r : list epoint) (q : epoint) (s : epoint * epoint) :
  closed r -> s ∈ segments r -> on_segment s.1 s.2 q ->
  locate r q = Boundary.
Proof.
  intros Hcl Hin Hon. apply locate_loop_boundary.
  destruct (countSegment_on_segment _ _ _ Hon) as [H | ->].
  - by exists s.
  - destruct s as [a b]. simpl.
    destruct (segments_closed_pred r a b Hcl Hin) as [z Hz].
    exists (z, a). split; [done|]. apply countSegment_endpoint.
Qed.

(** [contains] is strict: it is false on the boundary. *)
Lemma contains_excludes_boundary (walls : ring) (p : point) :
  ring_closed walls -> on_boundary walls p -> contains walls p = false.
Proof.
  intros Hcl (r & q & s & Hr & Hq & Hin & Hon).
  unfold contains. rewrite Hr, Hq.
  by rewrite (locate_on_boundary r q s (Hcl r Hr) Hin Hon).
Qed.

End Location.

(** ** The motion update *)

Section Motion.

Context {libm : Libm} {geos : Geos}.

(** Past the motion update, [step] touches the retina only. *)
Lemma step_fst (self : ArenaEnv) (speed direction : float) :
  exists m, (step self speed direction).1
            = set_retina (move self speed direction) m.
Proof.
  unfold step.
  destruct (width _).
  - exists (retina (move self speed direction)). by destruct (move _ _ _).
  - destruct (distances _); [|destruct (horizon_fits _)]; eexists; reflexivity.
Qed.

Lemma step_walls (self : ArenaEnv) (speed direction : float) :
  walls (step self speed direction).1 = walls self.
Proof.
  destruct (step_fst self speed direction) as [m ->].
  unfold move. by destruct (contains _ _).
Qed.

Lemma step_retina_dims (self : ArenaEnv) (speed direction : float) :
  retina_dims (step self speed direction).1 = retina_dims self.
Proof.
  destruct (step_fst self speed direction) as [m ->].
  unfold move. by destruct (contains _ _).
Qed.

(** The position after a call: the proposed one if the arena contains
    it, the previous one otherwise. *)
Lemma step_position (self : ArenaEnv) (speed direction : float) :
  agent_position (step self speed direction).1
  = if contains (walls self) (new_position self speed direction)
    then new_position self speed direction
    else agent_position self.
Proof.
  destruct (step_fst self speed direction) as [m ->].
  unfold move. by destruct (contains _ _).
Qed.

(** The direction after a call: the proposed or the previous one,
    reduced modulo [2 * pi]. *)
Lemma step_direction (self : ArenaEnv) (speed direction : float) :
  agent_direction (step self speed direction).1
  = mod_ (if contains (walls self) (new_position self speed direction)
          then new_direction self direction
          else agent_direction self) two_pi.
Proof.
  destruct (step_fst self speed direction) as [m ->].
  unfold move. by destruct (contains _ _).
Qed.

Lemma step_inside (self : ArenaEnv) (speed direction : float) :
  contains (walls self) (agent_position self) = true ->
  contains (walls (step self speed direction).1)
    (agent_position (step self speed direction).1) = true.
Proof.
  intros H. rewrite step_walls, step_position.
  by destruct (contains _ (new_position _ _ _)) eqn:E.
Qed.

Lemma run_walls (self : ArenaEnv) (calls : list (float * float)) :
  walls (run self calls) = walls self.
Proof.
  revert self. induction calls as [|c calls IH]; intros self; [done|].
  simpl. by rewrite IH, step_walls.
Qed.

Lemma run_inside (self : ArenaEnv) (calls : list (float * float)) :
  contains (walls self) (agent_position self) = true ->
  contains (walls (run self calls)) (agent_position (run self calls)) = true.
Proof.
  revert self. induction calls as [|c calls IH]; intros self H; [done|].
  simpl. by apply IH, step_inside.
Qed.

Lemma init_pose (c : config) (self : ArenaEnv) :
  init c = inr self ->
  agent_position self = (0, 0)%float /\ agent_direction self = 0%float.
Proof.
  unfold init. repeat (destruct (_ || _) || destruct (_ =? _) || destruct (_ <? _));
    try done.
  destruct (Polygon _); [done|]. simpl. by intros [= <-].
Qed.



End Motion.

Lemma sample_init :
  Sample.init Sample.cfg = inr Sample.arena.
Proof. vm_compute. reflexivity. Qed.

Lemma sample_origin_inside :
  contains (walls Sample.arena) (0, 0)%float = true.
Proof. vm_compute. reflexivity. Qed.




(** ** Shape and range of the retina *)

Section Buffer.

Context {libm : Libm} {geos : Geos}.

Lemma zeros_shape (dims : nat * nat) : has_shape dims (zeros dims).
Proof.
  split; [apply length_replicate|].
  apply Forall_replicate, length_replicate.
Qed.

Lemma zeros_binary (dims : nat * nat) : binary (zeros dims).
Proof. apply Forall_replicate, Forall_replicate. by left. Qed.

Lemma clear_shape (dims : nat * nat) (m : matrix) :
  has_shape dims m -> has_shape dims (clear m).
Proof.
  intros [Hl Hr]. unfold clear. split; [by rewrite length_map|].
  apply Forall_fmap. eapply Forall_impl; [exact Hr|].
  intros row Hrow. simpl. by rewrite length_map.
Qed.

Lemma clear_binary (m : matrix) :
  binary m -> binary (clear m).
Proof.
  intros H. unfold clear. apply Forall_fmap. eapply Forall_impl; [exact H|].
  intros row Hrow. simpl. apply Forall_fmap.
  eapply Forall_impl; [exact Hrow|].
  intros x [-> | ->]; left; reflexivity.
Qed.

Lemma set2_shape (dims : nat * nat) (r c : nat) (v : float) (m : matrix) :
  has_shape dims m -> has_shape dims (set2 r c v m).
Proof.
  intros [Hl Hr]. unfold set2. split; [by rewrite length_alter|].
  apply Forall_alter; [done|]. intros row _ Hrow. by rewrite length_insert.
Qed.

Lemma set2_binary (r c : nat) (m : matrix) :
  binary m -> binary (set2 r c 1%float m).
Proof.
  intros H. apply Forall_alter; [done|].
  intros row _ Hrow. apply Forall_insert; [done | by right].
Qed.

Lemma set_col_shape (dims : nat * nat) (c : nat) (col : nat -> float) (m : matrix) :
  has_shape dims m -> has_shape dims (set_col c col m).
Proof.
  intros [Hl Hr]. unfold set_col. split; [by rewrite length_imap|].
  apply Forall_lookup. intros r row. rewrite list_lookup_imap.
  destruct (m !! r) as [row'|] eqn:E; [|done]. intros [= <-].
  rewrite length_insert. by eapply (Forall_lookup_1 _ _ _ _ Hr).
Qed.

Lemma set_col_binary (c : nat) (f : nat -> bool) (m : matrix) :
  binary m -> binary (set_col c (fun r => of_bool (f r)) m).
Proof.
  intros H. apply Forall_lookup. intros r row. unfold set_col.
  rewrite list_lookup_imap.
  destruct (m !! r) as [row'|] eqn:E; [|done]. intros [= <-].
  apply Forall_insert; [by eapply (Forall_lookup_1 _ _ _ _ H)|].
  destruct (f r); [by right | by left].
Qed.

Lemma mark_shape (self : ArenaEnv) (dims : nat * nat) (rows : list Z) (m : matrix) :
  has_shape dims m -> has_shape dims (mark self rows m).
Proof.
  unfold mark. generalize (zip (seq 0 (length rows)) rows). intros l.
  revert m. induction l as [|[i r] l IH]; intros m H; [done|].
  simpl. apply IH. destruct (valid self r); [by apply set2_shape | done].
Qed.

Lemma mark_binary (self : ArenaEnv) (rows : list Z) (m : matrix) :
  binary m -> binary (mark self rows m).
Proof.
  unfold mark. generalize (zip (seq 0 (length rows)) rows). intros l.
  revert m. induction l as [|[i r] l IH]; intros m H; [done|].
  simpl. apply IH. destruct (valid self r); [by apply set2_binary | done].
Qed.

Lemma overlay_shape (dims : nat * nat) (b h : list Z) (es : list nat) (m : matrix) :
  has_shape dims m -> has_shape dims (overlay b h es m).
Proof.
  unfold overlay. revert m. induction es as [|e es IH]; intros m H; [done|].
  simpl. by apply IH, set_col_shape.
Qed.

Lemma overlay_binary (b h : list Z) (es : list nat) (m : matrix) :
  binary m -> binary (overlay b h es m).
Proof.
  unfold overlay. revert m. induction es as [|e es IH]; intros m H; [done|].
  simpl. apply IH. by apply (set_col_binary e (fun r => inner_wall b h r e)).
Qed.


Lemma move_retina (self : ArenaEnv) (speed direction : float) :
  retina (move self speed direction) = retina self
  /\ retina_dims (move self speed direction) = retina_dims self
  /\ walls (move self speed direction) = walls self.
Proof. unfold move. by destruct (contains _ _). Qed.

Lemma render_shape (self : ArenaEnv) (dims : nat * nat) (ds : list float) :
  has_shape dims (retina self) -> has_shape dims (render self ds).
Proof.
  intros H. unfold render. by apply overlay_shape, mark_shape, mark_shape.
Qed.

Lemma render_binary (self : ArenaEnv) (ds : list float) :
  binary (retina self) -> binary (render self ds).
Proof.
  intros H. unfold render. by apply overlay_binary, mark_binary, mark_binary.
Qed.

(** Whatever a call does - return or raise - it leaves a well-formed
    retina behind. *)
Lemma step_retina_ok (self : ArenaEnv) (speed direction : float) :
  retina_ok self -> retina_ok (step self speed direction).1.
Proof.
  intros [Hs Hb]. unfold step, retina_ok.
  destruct (move_retina self speed direction) as (Hr & Hd & _).
  destruct (width _); cbn [fst]; [by rewrite Hr, Hd|].
  destruct (distances _) as [e | ds]; [|destruct (horizon_fits _)];
    cbn [fst set_retina retina retina_dims]; rewrite Hd, Hr.
  - split; [by apply clear_shape | by apply clear_binary].
  - split.
    + by apply render_shape, clear_shape.
    + by apply render_binary, clear_binary.
  - split; [by apply clear_shape | by apply clear_binary].
Qed.


Lemma init_retina_ok (c : config) (self : ArenaEnv) :
  init c = inr self -> retina_ok self.
Proof.
  unfold init. repeat (destruct (_ || _) || destruct (_ =? _) || destruct (_ <? _));
    try done.
  destruct (Polygon _); [done|]. simpl. intros [= <-].
  split; [apply zeros_shape | apply zeros_binary].
Qed.


Lemma mapM_Forall2 {A B : Type} (f : A -> result B) (l : list A) (bs : list B) :
  mapM f l = inr bs <-> Forall2 (fun a b => f a = inr b) l bs.
Proof.
  revert bs. induction l as [|a l IH]; intros bs; simpl.
  - split; [intros [= <-]; constructor | by intros ->%Forall2_nil_inv_l].
  - split.
    + destruct (f a) as [e|b] eqn:Ea; simpl; [done|].
      destruct (mapM f l) as [e|bs'] eqn:El; simpl; [done|].
      intros [= <-]. constructor; [done | by apply IH].
    + intros (b & bs' & Hb & Hbs & ->)%Forall2_cons_inv_l.
      rewrite Hb. simpl. apply IH in Hbs. by rewrite Hbs.
Qed.


Lemma distances_length (self : ArenaEnv) (ds : list float) :
  distances self = inr ds -> length ds = width self.
Proof.
  unfold distances, intersections.
  destruct (mapM (intersect self) _) as [e | gs] eqn:Egs; [done|]. simpl.
  intros Hds. apply mapM_Forall2, Forall2_length in Egs, Hds.
  rewrite length_seq in Egs. lia.
Qed.

Lemma step_returns_reverse (self : ArenaEnv) (speed direction : float) (buf : matrix) :
  (step self speed direction).2 = inr buf ->
  buf = reverse (retina (step self speed direction).1).
Proof.
  unfold step. destruct (width _); [done|].
  destruct (distances _); [done|]. destruct (horizon_fits _); [|done].
  cbn [fst snd]. by intros [= <-].
Qed.



End Buffer.



(** ** Normalisation of the direction *)

Section Direction.

Context {libm : Libm} {geos : Geos}.

#[local] Open Scope float_scope.

Lemma Prim2SF_two_pi :
  Prim2SF two_pi = S754_finite false 7074237752028440 (-50).
Proof. vm_compute. reflexivity. Qed.

Lemma SFeqb_finite_refl (s : bool) (m : positive) (e : Z) :
  SFeqb (S754_finite s m e) (S754_finite s m e) = true.
Proof.
  unfold SFeqb, SFcompare.
  destruct s; rewrite Z.compare_refl, Pos.compare_cont_refl; reflexivity.
Qed.

(** A direction already in [[0, 2 * pi)] is a fixed point of the
    reduction, up to the sign of zero. *)
Lemma mod_two_pi_id (d : float) :
  (0 <=? d) = true -> (d <? two_pi) = true -> (mod_ d two_pi =? d) = true.
Proof.
  rewrite leb_spec, ltb_spec, Prim2SF_two_pi.
  change (Prim2SF 0) with (S754_zero false).
  intros H0 H1. unfold mod_, fmod. rewrite Prim2SF_two_pi.
  destruct (Prim2SF d) as [s | s | | s m e] eqn:E.
  - assert (Hz : (d =? 0) = true) by (rewrite FloatAxioms.eqb_spec, E; reflexivity).
    rewrite Hz. rewrite FloatAxioms.eqb_spec, E. reflexivity.
  - destruct s; discriminate.
  - discriminate.
  - destruct s; [discriminate|].
    assert (Ha : (abs d <? abs two_pi) = true).
    { rewrite ltb_spec, !abs_spec, E, Prim2SF_two_pi. exact H1. }
    rewrite Ha.
    assert (Hz : (d =? 0) = false) by (rewrite FloatAxioms.eqb_spec, E; reflexivity).
    assert (Hr : (d =? d) = true).
    { rewrite FloatAxioms.eqb_spec, E. apply SFeqb_finite_refl. }
    assert (Hneg : (d <? 0) = false) by (rewrite ltb_spec, E; reflexivity).
    rewrite Hz. unfold is_nan. rewrite Hr. cbn [negb].
    change (two_pi <? 0) with false. rewrite Hneg. exact Hr.
Qed.

(** A rejected motion leaves position and direction as they were, when
    the direction was in [[0, 2 * pi)] before the call. *)
Lemma rejected_step_frame (self : ArenaEnv) (speed direction : float) :
  contains (walls self) (new_position self speed direction) = false ->
  (0 <=? agent_direction self) = true ->
  (agent_direction self <? two_pi) = true ->
  agent_position (step self speed direction).1 = agent_position self
  /\ (agent_direction (step self speed direction).1 =? agent_direction self) = true.
Proof.
  intros Hc H0 H1. rewrite step_position, step_direction, Hc.
  split; [reflexivity | by apply mod_two_pi_id].
Qed.

(** Whatever the arena and its retina: from the constructed pose, a turn
    by [-1e-20] without displacement is accepted and leaves the direction
    at exactly [2 * pi]. *)
Lemma tiny_negative_turn (self : ArenaEnv) :
  agent_position self = (0, 0) -> agent_direction self = 0 ->
  contains (walls self) (0, 0) = true ->
  cos (-0x1.79ca10c924223p-67) = 1 ->
  sin (-0x1.79ca10c924223p-67) = -0x1.79ca10c924223p-67 ->
  agent_direction (step self 0 (-0x1.79ca10c924223p-67)).1 = two_pi.
Proof.
  intros Hp Hd Hin Hc Hs. rewrite step_direction.
  unfold new_position, new_direction. rewrite Hp, Hd.
  change (0 + -0x1.79ca10c924223p-67) with (-0x1.79ca10c924223p-67).
  rewrite Hc, Hs.
  change ((0, 0).1 + 0 * 1, (0, 0).2 + 0 * -0x1.79ca10c924223p-67)
    with (0, 0).
  rewrite Hin. vm_compute. reflexivity.
Qed.

(** A rejected motion resets a direction of exactly [2 * pi] to [0]. *)
Lemma rejected_at_two_pi (self : ArenaEnv) (speed direction : float) :
  agent_direction self = two_pi ->
  contains (walls self) (new_position self speed direction) = false ->
  agent_direction (step self speed direction).1 = 0.
Proof.
  intros Hd Hc. rewrite step_direction, Hc, Hd. vm_compute. reflexivity.
Qed.

End Direction.

(** C6 (code bug). The reduction [direction % (2 * pi)] rounds to exactly
    [2 * pi] for a tiny negative angle: after [step(0, -1e-20)] on the
    sample arena the stored direction is [2 * pi], outside [[0, 2 * pi)]. *)
Theorem direction_reaches_two_pi :
  let s := (Sample.step Sample.arena 0 (-0x1.79ca10c924223p-67)).1 in
  agent_direction s = two_pi
  /\ (agent_direction s <? two_pi)%float = false.
Proof. vm_compute. split; reflexivity. Qed.

(** C5 (code bug). With the direction left at [2 * pi] by the call above,
    [step(100, 0)] proposes a position outside the arena; the position is
    kept, but the stored direction changes from [2 * pi] to [0]. *)
Theorem rejected_step_changes_direction :
  let s := (Sample.step Sample.arena 0 (-0x1.79ca10c924223p-67)).1 in
  let s' := (Sample.step s 100 0).1 in
  contains (walls s) (new_position (libm := Sample.libm) s 100 0) = false
  /\ agent_position s' = agent_position s
  /\ agent_direction s = two_pi
  /\ agent_direction s' = 0%float
  /\ (agent_direction s' =? agent_direction s)%float = false.
Proof. vm_compute. repeat split; reflexivity. Qed.

(** ** What can fault *)

Section Faults.

Context {libm : Libm} {geos : Geos}.

Lemma wall_angles_length (n : nat) :
  length (wall_angles (S n)) = S (S n).
Proof.
  unfold wall_angles. rewrite length_map, length_app, length_map, length_seq.
  simpl. lia.
Qed.

Lemma wall_coords_length (c : config) (n : nat) :
  Z.to_nat (cfg_num_walls c) = S n -> length (wall_coords c) = S (S n).
Proof.
  intros Hn. unfold wall_coords. rewrite length_map, Hn.
  apply wall_angles_length.
Qed.

(** The coordinates handed to [Polygon] end with the first corner. *)
Lemma wall_coords_closed (c : config) (n : nat) :
  Z.to_nat (cfg_num_walls c) = S n -> closed (wall_coords c).
Proof.
  intros Hn. unfold wall_coords, wall_angles. rewrite Hn.
  change (seq 0 (S n)) with (0%nat :: seq 1 n).
  cbn [map take app].
  eexists. split; [reflexivity|].
  rewrite take_0, !map_app. cbn [map].
  rewrite app_comm_cons. apply last_snoc.
Qed.

(** [Polygon] on a shell of three coordinates or more that ends where it
    starts. *)
Lemma Polygon_closed_shell (cs : list point) (p : point) :
  head cs = Some p -> last cs = Some p -> (3 <= length cs)%nat ->
  Polygon cs
  = if point_eqb p p
    then inr (if (length cs =? 3)%nat then cs ++ [p] else cs)
    else inl GEOSException.
Proof.
  intros Hh Hl Hlen. unfold Polygon, close_ring.
  destruct cs as [|q cs]; [done|]. simpl in Hh. injection Hh as ->.
  rewrite Hl.
  destruct (Nat.ltb_spec (length (p :: cs)) 3) as [H | _]; [lia|].
  destruct (length (p :: cs) =? 3)%nat; cbn [orb].
  - rewrite last_snoc. by destruct (point_eqb p p).
  - destruct (point_eqb p p) eqn:E; cbn [negb].
    + by rewrite Hl, E.
    + by rewrite last_snoc, E.
Qed.

Lemma is_finite_eqb (x : float) : is_finite x = true -> (x =? x)%float = true.
Proof.
  unfold is_finite, is_nan. destruct (x =? x)%float; [done|].
  by destruct (is_infinity x).
Qed.

Lemma mapM_raises {A B : Type} (f : A -> result B) (l : list A) (e : exn) :
  mapM f l = inl e -> exists a, a ∈ l /\ f a = inl e.
Proof.
  induction l as [|a l IH]; [done|]. simpl.
  destruct (f a) as [e'|b] eqn:Ea; simpl.
  - intros [= ->]. exists a. split; [by left | done].
  - destruct (mapM f l) as [e'|bs]; simpl; [|done].
    intros [= ->]. destruct IH as (a' & Hin & Ha'); [done|].
    exists a'. split; [by right | done].
Qed.

Lemma mapM_stops {A B : Type} (f : A -> result B) (l : list A) (a : A) (e : exn) :
  a ∈ l -> f a = inl e -> exists e', mapM f l = inl e'.
Proof.
  induction l as [|x l IH]; intros Hin Ha; [by apply elem_of_nil in Hin|].
  simpl. apply elem_of_cons in Hin as [<- | Hin].
  - rewrite Ha. by eexists.
  - destruct (f x); simpl; [by eexists|].
    destruct (IH Hin Ha) as [e' ->]. by eexists.
Qed.

Lemma distance_raises (self : ArenaEnv) (g : geometry) (e : exn) :
  distance self g = inl e -> e = ValueError \/ e = NotImplementedError.
Proof.
  unfold distance. destruct g as [x y | cs |]; simpl.
  - done.
  - destruct (map fst cs ++ map snd cs) as [|a [|b [|]]]; simpl;
      try done; intros [= <-]; by left.
  - intros [= <-]. by right.
Qed.

Lemma intersect_raises (self : ArenaEnv) (i : nat) (e : exn) :
  intersect self i = inl e -> e = GEOSException.
Proof. unfold intersect. destruct (intersection _ _); [done | by intros [= <-]]. Qed.

(** The exceptions of the distance computation, lines 155-165. *)
Lemma distances_raises (self : ArenaEnv) (e : exn) :
  distances self = inl e ->
  e = ValueError \/ e = NotImplementedError \/ e = GEOSException.
Proof.
  unfold distances, intersections.
  destruct (mapM (intersect self) _) as [e' | gs] eqn:Egs; simpl.
  - intros [= ->]. destruct (mapM_raises _ _ _ Egs) as (i & _ & Hi).
    apply intersect_raises in Hi. auto.
  - intros He. destruct (mapM_raises _ _ _ He) as (g & _ & Hg).
    apply distance_raises in Hg. tauto.
Qed.

(** C7, as the code has it. The constructor checks nothing itself; it
    fails only where a library call or an operation on its arguments
    does: [ValueError] for a negative retina dimension ([np.zeros]),
    [ZeroDivisionError] for [num_walls = 0], [IndexError] for a negative
    [num_walls], [ValueError] for [num_walls = 1] (two coordinates make no
    ring), and the [GEOSException] of a ring whose first corner is NaN.
    With two walls or more and finite corners it returns an object whose
    attributes are the arguments as given, whatever the sign of the
    distance and scale parameters. And [step] can fault as well: it
    divides by the retina width. *)
Theorem init_checks_wall_count_only (c : config) :
  ((cfg_retina_dims c).1 < 0 \/ (cfg_retina_dims c).2 < 0 ->
   init c = inl ValueError)
  /\ (0 <= (cfg_retina_dims c).1 -> 0 <= (cfg_retina_dims c).2 ->
      (cfg_num_walls c = 0 -> init c = inl ZeroDivisionError)
      /\ (cfg_num_walls c < 0 -> init c = inl IndexError)
      /\ (cfg_num_walls c = 1 -> init c = inl ValueError)
      /\ (2 <= cfg_num_walls c ->
          (forall p, head (wall_coords c) = Some p -> point_eqb p p = false) ->
          init c = inl GEOSException)
      /\ (2 <= cfg_num_walls c ->
          Forall (fun p => is_finite p.1 = true /\ is_finite p.2 = true)
            (wall_coords c) ->
          exists w,
            init c
            = inr (mkArenaEnv (cfg_wall_dist c) (cfg_wall_height c)
                     (Z.to_nat (cfg_num_walls c))
                     (Z.to_nat (cfg_retina_dims c).1,
                      Z.to_nat (cfg_retina_dims c).2)
                     (zeros (Z.to_nat (cfg_retina_dims c).1,
                             Z.to_nat (cfg_retina_dims c).2))
                     (cfg_retina_pov_horizon c)
                     (cfg_retina_scale c) (0, 0)%float (cfg_agent_height c)
                     (cfg_agent_view_angle c) (cfg_agent_pov_dist c) 0%float w)))
  /\ (forall self speed direction,
         width self = 0%nat ->
         (step self speed direction).2 = inl ZeroDivisionError).
Proof.
  split; [|split].
  - intros Hneg. unfold init.
    destruct (Z.ltb_spec (cfg_retina_dims c).1 0),
      (Z.ltb_spec (cfg_retina_dims c).2 0); simpl; try done; lia.
  - intros H1 H2.
    assert (Hdims : ((cfg_retina_dims c).1 <? 0) || ((cfg_retina_dims c).2 <? 0)
                    = false).
    { destruct (Z.ltb_spec (cfg_retina_dims c).1 0),
        (Z.ltb_spec (cfg_retina_dims c).2 0); simpl; try done; lia. }
    assert (Hshell : 2 <= cfg_num_walls c ->
              exists p n, Z.to_nat (cfg_num_walls c) = S (S n)
                          /\ head (wall_coords c) = Some p
                          /\ Polygon (wall_coords c)
                             = if point_eqb p p
                               then inr (if (length (wall_coords c) =? 3)%nat
                                         then wall_coords c ++ [p]
                                         else wall_coords c)
                               else inl GEOSException).
    { intros HN.
      destruct (Z.to_nat (cfg_num_walls c)) as [|[|n]] eqn:En; try lia.
      destruct (wall_coords_closed c (S n) En) as (p & Hh & Hl).
      exists p, n. split; [done|]. split; [done|].
      apply Polygon_closed_shell; try done.
      rewrite (wall_coords_length c (S n) En). lia. }
    unfold init. rewrite Hdims.
    split; [|split; [|split; [|split]]].
    + intros ->. reflexivity.
    + intros HN. destruct (Z.eqb_spec (cfg_num_walls c) 0); [lia|].
      destruct (Z.ltb_spec (cfg_num_walls c) 0); [done | lia].
    + intros HN. rewrite HN. cbn [Z.eqb Z.ltb Z.compare].
      unfold wall_coords. rewrite HN. reflexivity.
    + intros HN Hnan.
      destruct (Z.eqb_spec (cfg_num_walls c) 0); [lia|].
      destruct (Z.ltb_spec (cfg_num_walls c) 0); [lia|].
      destruct (Hshell HN) as (p & n' & _ & Hh & ->).
      by rewrite (Hnan p Hh).
    + intros HN Hfin.
      destruct (Z.eqb_spec (cfg_num_walls c) 0); [lia|].
      destruct (Z.ltb_spec (cfg_num_walls c) 0); [lia|].
      destruct (Hshell HN) as (p & n' & _ & Hh & ->).
      assert (Hp : point_eqb p p = true).
      { destruct (wall_coords c) as [|q cs]; [done|].
        simpl in Hh. injection Hh as ->.
        apply Forall_cons in Hfin as [[Hx Hy] _].
        unfold point_eqb. by rewrite (is_finite_eqb _ Hx), (is_finite_eqb _ Hy). }
      rewrite Hp. by eexists.
  - intros self speed direction Hw. unfold step.
    assert (Hm : width (move self speed direction) = width self).
    { unfold width. by destruct (move_retina self speed direction) as (_ & -> & _). }
    rewrite Hm, Hw. reflexivity.
Qed.

(** C8, as the code has it. When a cast ray has no crossing with the wall
    ring (the overlay returns the empty line string), [step] does not put
    a far-clip distance in its place: the call raises - [ValueError] from
    the subtraction, unless the [NotImplementedError] of an earlier column
    or a [GEOSException] of the overlay on another ray comes first -
    after the motion update was applied and the retina cleared. *)
Theorem step_raises_without_crossing
  (self : ArenaEnv) (speed direction : float) (i : nat) :
  (i < width self)%nat ->
  intersection (walls self) (ray (move self speed direction) i)
  = Some (LineString []) ->
  (exists e, (step self speed direction).2 = inl e
             /\ (e = ValueError \/ e = NotImplementedError \/ e = GEOSException))
  /\ (step self speed direction).1
     = set_retina (move self speed direction) (clear (retina self)).
Proof.
  intros Hi Hempty.
  destruct (move_retina self speed direction) as (Hr & Hd & Hwl).
  assert (Hm : width (move self speed direction) = width self)
    by (unfold width; by rewrite Hd).
  unfold step. rewrite Hm, Hr.
  destruct (width self) as [|n] eqn:En; [lia|].
  set (s1 := set_retina _ _).
  assert (Hraise : exists e, distances s1 = inl e).
  { unfold distances, intersections.
    destruct (mapM (intersect s1) (seq 0 (width s1))) as [e | gs] eqn:Egs;
      [by eexists|]. simpl.
    apply mapM_Forall2 in Egs.
    assert (Hk : seq 0 (width s1) !! i = Some i).
    { apply lookup_seq. split; [done|].
      change (width s1) with (width (move self speed direction)).
      rewrite Hm. lia. }
    destruct (Forall2_lookup_l _ _ _ _ _ Egs Hk) as (g & Hg & Hgi).
    unfold intersect in Hgi.
    change (walls s1) with (walls (move self speed direction)) in Hgi.
    change (ray s1 i) with (ray (move self speed direction) i) in Hgi.
    rewrite Hwl, Hempty in Hgi. injection Hgi as <-.
    apply (mapM_stops (distance s1) gs (LineString []) ValueError).
    - apply list_elem_of_lookup. by exists i.
    - reflexivity. }
  destruct Hraise as [e He]. rewrite He. split; [|reflexivity].
  exists e. split; [reflexivity|]. by apply distances_raises in He.
Qed.

End Faults.

(** C7 fails as stated: a negative wall distance, a zero retina scale
    and a retina without columns are accepted by the constructor and stored
    as given; the first [step] on that object then raises. And two walls
    are accepted too, with a ring of four coordinates. *)
Lemma init_accepts_nonpositive :
  match Sample.init (mkConfig (-5) 1 4 (50, 0)%Z 0 20 0.5 1 0.5),
        Sample.init (mkConfig 5 1 2 (50, 2)%Z 0x1.0624dd2f1a9fcp-7 20 0.5 1 0.5)
  with
  | inr self, inr two =>
      wall_dist self = (-5)%float
      /\ retina_scale self = 0%float
      /\ (Sample.step self 0 0).2 = inl ZeroDivisionError
      /\ num_walls two = 2%nat /\ length (walls two) = 4%nat
  | _, _ => False
  end.
Proof. vm_compute. repeat split; reflexivity. Qed.

(** C8 fails as stated: with an overlay that reports no crossing, the
    call on the sample arena raises instead of returning a buffer. *)
Lemma no_crossing_raises :
  (step (geos := Sample.no_geos) (libm := Sample.libm) Sample.arena 0 0).2
  = inl ValueError.
Proof. vm_compute. reflexivity. Qed.

Lemma step_raises_without_crossing_witness :
  (0 < width Sample.arena)%nat
  /\ exists e,
      (step (geos := Sample.no_geos) (libm := Sample.libm) Sample.arena 0 0).2
      = inl e.
Proof.
  split; [vm_compute; lia|].
  destruct (step_raises_without_crossing (libm := Sample.libm)
              (geos := Sample.no_geos) Sample.arena 0%float 0%float 0)
    as [(e & He & _) _].
  - vm_compute; lia.
  - reflexivity.
  - by exists e.
Defined.

(** ** The vertical projection *)

Section Projection.

#[local] Open Scope Z_scope.

(** The exponent of a finite binary64 number is at least [-1074]. *)
Lemma finite_exponent (x : float) (s : bool) (m : positive) (e : Z) :
  Prim2SF x = S754_finite s m e -> -1074 <= e.
Proof.
  intros H. pose proof (Prim2SF_valid x) as Hv. rewrite H in Hv.
  unfold valid_binary, bounded, canonical_mantissa, fexp, emin, emax, prec in Hv.
  apply andb_prop in Hv as [Hc _].
  apply Z.eqb_eq in Hc. lia.
Qed.

Lemma shiftl_quot (m : positive) (e : Z) :
  -1074 <= e ->
  Z.quot (Zpos m * 2 ^ (e + 1074)) (2 ^ 1074) = Z.shiftl (Zpos m) e.
Proof.
  intros He. destruct (Z.le_gt_cases 0 e) as [H | H].
  - rewrite Z.shiftl_mul_pow2 by done.
    rewrite Z.pow_add_r by lia. rewrite Z.mul_assoc.
    apply Z.quot_mul. apply Z.pow_nonzero; lia.
  - rewrite Z.shiftl_div_pow2 by lia.
    rewrite Z.quot_div_nonneg.
    + replace (2 ^ 1074) with (2 ^ (- e) * 2 ^ (e + 1074)).
      * apply Z.div_mul_cancel_r; apply Z.pow_nonzero; lia.
      * rewrite <- Z.pow_add_r by lia. f_equal. lia.
    + apply Z.mul_nonneg_nonneg; [lia | apply Z.pow_nonneg; lia].
    + apply Z.pow_pos_nonneg; lia.
Qed.

(** [trunc] is the quotient, truncated toward zero, of the exact value. *)
Lemma trunc_exact (x : float) (X : Z) :
  Shapely.exact x = Some X -> trunc x = Some (Z.quot X (2 ^ 1074)).
Proof.
  unfold Shapely.exact, trunc.
  destruct (Prim2SF x) as [s | s | | s m e] eqn:E; try done.
  - intros [= <-]. by rewrite Z.quot_0_l by (apply Z.pow_nonzero; lia).
  - intros [= <-]. f_equal.
    pose proof (finite_exponent x s m e E) as He.
    destruct s.
    + rewrite Z.quot_opp_l by (apply Z.pow_nonzero; lia).
      by rewrite shiftl_quot.
    + by rewrite shiftl_quot.
Qed.

Lemma wrap64_id (z : Z) :
  int64_min <= z <= int64_max -> wrap64 z = z.
Proof.
  unfold wrap64, int64_min, int64_max. intros H.
  rewrite Z.mod_small; lia.
Qed.

Lemma astype_int_exact (x : float) (X : Z) :
  Shapely.exact x = Some X ->
  int64_min <= Z.quot X (2 ^ 1074) <= int64_max ->
  astype_int x = Z.quot X (2 ^ 1074).
Proof.
  intros Hx Hr. unfold astype_int. rewrite (trunc_exact x X Hx).
  destruct (Z.leb_spec int64_min (Z.quot X (2 ^ 1074))),
    (Z.leb_spec (Z.quot X (2 ^ 1074)) int64_max); simpl; lia.
Qed.

(** C9, as the code has it. The pixel rows come from truncation toward
    zero ([astype(int)]), not from rounding to nearest:
    [b = horizon - trunc(pov_base / retina_scale)] and
    [h = horizon + trunc(pov_height / retina_scale)], for finite
    quotients whose rows fit 64-bit integers. *)
Theorem rows_truncate (self : ArenaEnv) (d : float) (Xb Xh : Z) :
  Shapely.exact (pov_base self d / retina_scale self) = Some Xb ->
  Shapely.exact (pov_height self d / retina_scale self) = Some Xh ->
  int64_min <= Z.quot Xb (2 ^ 1074) <= int64_max ->
  int64_min <= Z.quot Xh (2 ^ 1074) <= int64_max ->
  int64_min <= retina_pov_horizon self - Z.quot Xb (2 ^ 1074) <= int64_max ->
  int64_min <= retina_pov_horizon self + Z.quot Xh (2 ^ 1074) <= int64_max ->
  row_b self d = retina_pov_horizon self - Z.quot Xb (2 ^ 1074)
  /\ row_h self d = retina_pov_horizon self + Z.quot Xh (2 ^ 1074).
Proof.
  intros Hb Hh Rb Rh Wb Wh. unfold row_b, row_h.
  rewrite (astype_int_exact _ _ Hb Rb), (astype_int_exact _ _ Hh Rh).
  by rewrite !wrap64_id.
Qed.

End Projection.

(** The distance at which both rays of the first call on the sample arena
    meet the wall. *)
Lemma sample_distances :
  distances (libm := Sample.libm) (geos := Sample.geos)
    (Sample.step Sample.arena 0 0).1
  = inr [0x1.d3118052a55bcp+1; 0x1.d3118052a55bcp+1]%float.
Proof. vm_compute. reflexivity. Qed.

(** C9 fails as stated: at that distance the quotient is 8.56...; the code
    takes row 20 - 8 = 12 (and 20 + 8 = 28), rounding would give 11
    (and 29). *)
Lemma rows_not_rounded :
  let s := (Sample.step Sample.arena 0 0).1 in
  let d := 0x1.d3118052a55bcp+1%float in
  row_b s d = 12 /\ row_b_rounded s d = Some 11
  /\ row_h s d = 28 /\ row_h_rounded s d = Some 29.
Proof. vm_compute. repeat split; reflexivity. Qed.

Lemma rows_truncate_witness :
  row_b Sample.arena 0x1.d3118052a55bcp+1 = 12
  /\ row_h Sample.arena 0x1.d3118052a55bcp+1 = 28.
Proof.
  set (d := 0x1.d3118052a55bcp+1%float).
  set (Xb := default 0 (Shapely.exact
                          (pov_base Sample.arena d / retina_scale Sample.arena))).
  set (Xh := default 0 (Shapely.exact
                          (pov_height Sample.arena d / retina_scale Sample.arena))).
  destruct (rows_truncate Sample.arena d Xb Xh) as [Hb Hh].
  - vm_compute; reflexivity.
  - vm_compute; reflexivity.
  - vm_compute; split; intros H; discriminate H.
  - vm_compute; split; intros H; discriminate H.
  - vm_compute; split; intros H; discriminate H.
  - vm_compute; split; intros H; discriminate H.
  - split; [rewrite Hb | rewrite Hh]; vm_compute; reflexivity.
Defined.

(** ** The corner overlay *)

Section Corners.

Context {libm : Libm} {geos : Geos}.

(** C3, as the code has it. The angle compared with a column's slice is
    not the bearing of the vertex but that bearing less one
    [angle_increment], reduced again modulo [2 * pi] (lines 125-126):
    column [i] is a corner column exactly when, for some vertex [v],
    [lower_i < (bearing_v - angle_increment) % (2 * pi) < upper_i]. *)
Theorem corner_columns_shifted_bearing (self : ArenaEnv) (i : nat) :
  i ∈ edges_in_retina self
  <-> (i < width self)%nat
      /\ exists v,
          v ∈ vertices self
          /\ let ad :=
               mod_ (find_angle (agent_position self) v - angle_increment self)
                 two_pi in
             (lower_bound self i <? ad)%float = true
             /\ (ad <? upper_bound self i)%float = true.
Proof.
  unfold edges_in_retina, agent_edge_directions.
  rewrite list_elem_of_In, in_flat_map. split.
  - intros (j & Hj & Hin). apply in_seq in Hj.
    apply in_flat_map in Hin as (ad & Had & Hi).
    apply in_map_iff in Had as (v & <- & Hv).
    destruct (edge self j _) eqn:E; [|done].
    destruct Hi as [<- | []]. split; [lia|].
    exists v. split; [by apply list_elem_of_In|].
    by apply andb_prop in E.
  - intros (Hi & v & Hv & Hlo & Hup).
    exists i. split; [apply in_seq; lia|].
    apply in_flat_map. eexists. split.
    + apply in_map_iff. exists v. split; [reflexivity|].
      by apply list_elem_of_In.
    + unfold edge. cbv zeta in Hlo, Hup. rewrite Hlo, Hup. by left.
Qed.

End Corners.

(** C3 fails as stated: on the sample arena the bearing of no vertex
    lies in the slice of column 1 (nor of column 0), yet column 1 is a
    corner column - for the vertex at bearing 0.785, whose shifted bearing
    0.285 lies in the slice (0, 0.5). *)
Lemma corner_test_not_on_bearing :
  let s := (Sample.step Sample.arena 0 0).1 in
  edges_in_retina (libm := Sample.libm) s = [1%nat]
  /\ existsb (corner_column_spec (libm := Sample.libm) s 1) (vertices s) = false
  /\ existsb (corner_column_spec (libm := Sample.libm) s 0) (vertices s) = false.
Proof. vm_compute. repeat split; reflexivity. Qed.

(** ** The pixels of the retina *)

Section Pixels.

Context {libm : Libm} {geos : Geos}.

Lemma get2_in_shape (dims : nat * nat) (m : matrix) (r c : nat) :
  has_shape dims m -> (r < dims.1)%nat -> (c < dims.2)%nat ->
  is_Some (get2 m r c).
Proof.
  intros [Hl Hr] Hrow Hcol. unfold get2.
  destruct (lookup_lt_is_Some_2 m r) as [row Erow]; [lia|].
  rewrite Erow. simpl. apply lookup_lt_is_Some.
  by rewrite (Forall_lookup_1 _ _ _ _ Hr Erow).
Qed.

Lemma get2_set2_same (m : matrix) (r c : nat) (v : float) :
  is_Some (get2 m r c) -> get2 (set2 r c v m) r c = Some v.
Proof.
  unfold get2, set2. rewrite list_lookup_alter_eq.
  destruct (m !! r) as [row|]; simpl; [|by intros [? ?]].
  intros H. apply list_lookup_insert_eq. by apply lookup_lt_is_Some.
Qed.

Lemma get2_set2_keep (m : matrix) (r c r' c' : nat) :
  get2 m r' c' = Some 1%float -> get2 (set2 r c 1 m) r' c' = Some 1%float.
Proof.
  unfold get2, set2. rewrite list_lookup_alter.
  destruct (decide (r = r')) as [<- | Hne]; [|done].
  destruct (m !! r) as [row|]; simpl; [|done].
  rewrite list_lookup_insert. by destruct (decide _).
Qed.

Lemma get2_set_col_same (m : matrix) (r e : nat) (col : nat -> float) :
  is_Some (get2 m r e) -> get2 (set_col e col m) r e = Some (col r).
Proof.
  unfold get2, set_col. rewrite list_lookup_imap.
  destruct (m !! r) as [row|]; simpl; [|by intros [? ?]].
  intros H. apply list_lookup_insert_eq. by apply lookup_lt_is_Some.
Qed.

Lemma get2_set_col_other (m : matrix) (r c e : nat) (col : nat -> float) :
  e <> c -> get2 (set_col e col m) r c = get2 m r c.
Proof.
  intros Hne. unfold get2, set_col. rewrite list_lookup_imap.
  destruct (m !! r) as [row|]; simpl; [|done].
  by apply list_lookup_insert_ne.
Qed.

(** [mark] only writes ones. *)
Lemma mark_keep (self : ArenaEnv) (rows : list Z) (m : matrix) (r c : nat) :
  get2 m r c = Some 1%float -> get2 (mark self rows m) r c = Some 1%float.
Proof.
  unfold mark. generalize (zip (seq 0 (length rows)) rows). intros l.
  revert m. induction l as [|[i b] l IH]; intros m H; [done|].
  simpl. apply IH. destruct (valid self b); [by apply get2_set2_keep | done].
Qed.

(** [mark] writes a one on the valid row of each column. *)
Lemma mark_sets (self : ArenaEnv) (rows : list Z) (m : matrix) (i : nat) (b : Z) :
  has_shape (retina_dims self) m ->
  rows !! i = Some b -> valid self b = true -> (i < width self)%nat ->
  get2 (mark self rows m) (Z.to_nat b) i = Some 1%float.
Proof.
  intros Hs Hb Hv Hi.
  assert (Hin : (i, b) ∈ zip (seq 0 (length rows)) rows).
  { apply list_elem_of_lookup. exists i. apply lookup_zip_Some. split; [|done].
    apply lookup_seq. split; [done|]. by apply lookup_lt_Some in Hb. }
  pose proof (mark_keep self) as Hkeep. unfold mark in *.
  revert Hin Hkeep. generalize (zip (seq 0 (length rows)) rows). intros l Hin _.
  revert m Hs. induction l as [|[j b'] l IH]; intros m Hs.
  { by apply elem_of_nil in Hin. }
  apply elem_of_cons in Hin as [[= <- <-] | Hin].
  - simpl. rewrite Hv.
    assert (Hone : get2 (set2 (Z.to_nat b) i 1 m) (Z.to_nat b) i = Some 1%float).
    { apply get2_set2_same. eapply get2_in_shape; [done| |done].
      unfold valid, height in Hv. apply andb_prop in Hv as [H0 H1].
      apply Z.leb_le in H0. apply Z.ltb_lt in H1. lia. }
    clear IH. revert Hone. generalize (set2 (Z.to_nat b) i 1 m). intros m'.
    revert m'. induction l as [|[j b'] l IH]; intros m' H; [done|].
    simpl. apply IH. destruct (valid self b'); [by apply get2_set2_keep | done].
  - simpl. apply IH; [done|].
    destruct (valid self b'); [by apply set2_shape | done].
Qed.

Lemma overlay_other (b h : list Z) (es : list nat) (m : matrix) (r c : nat) :
  c ∉ es -> get2 (overlay b h es m) r c = get2 m r c.
Proof.
  unfold overlay. revert m. induction es as [|e es IH]; intros m Hc; [done|].
  apply not_elem_of_cons in Hc as [Hne Hc]. simpl.
  rewrite IH by done. by apply get2_set_col_other.
Qed.

Lemma overlay_keep (b h : list Z) (es : list nat) (m : matrix) (r e : nat) :
  get2 m r e = Some (of_bool (inner_wall b h r e)) ->
  get2 (overlay b h es m) r e = Some (of_bool (inner_wall b h r e)).
Proof.
  unfold overlay. revert m. induction es as [|e' es IH]; intros m H; [done|].
  simpl. apply IH. destruct (decide (e' = e)) as [-> | Hne].
  - apply (get2_set_col_same m r e (fun r => of_bool (inner_wall b h r e))).
    by rewrite H.
  - by rewrite get2_set_col_other.
Qed.

(** A corner column is overwritten by the column of [inner_wall]. *)
Lemma overlay_corner (b h : list Z) (es : list nat) (m : matrix) (r e : nat) :
  e ∈ es -> is_Some (get2 m r e) ->
  get2 (overlay b h es m) r e = Some (of_bool (inner_wall b h r e)).
Proof.
  revert m. induction es as [|e' es IH]; intros m Hin Hsome.
  { by apply elem_of_nil in Hin. }
  destruct (decide (e' = e)) as [-> | Hne].
  - change (overlay b h (e :: es) m)
      with (overlay b h es (set_col e (fun r => of_bool (inner_wall b h r e)) m)).
    apply overlay_keep.
    by apply (get2_set_col_same m r e (fun r => of_bool (inner_wall b h r e))).
  - apply elem_of_cons in Hin as [-> | Hin]; [done|].
    change (overlay b h (e' :: es) m)
      with (overlay b h es (set_col e' (fun r => of_bool (inner_wall b h r e')) m)).
    apply IH; [done|]. by rewrite get2_set_col_other.
Qed.

Lemma mapM_length {A B : Type} (f : A -> result B) (l : list A) (bs : list B) :
  mapM f l = inr bs -> length bs = length l.
Proof.
  revert bs. induction l as [|a l IH]; intros bs; simpl.
  - by intros [= <-].
  - destruct (f a); simpl; [done|].
    destruct (mapM f l); simpl; [done|].
    intros [= <-]. simpl. by rewrite (IH _ eq_refl).
Qed.

Lemma get2_reverse (dims : nat * nat) (m : matrix) (r c : nat) :
  has_shape dims m -> (r < dims.1)%nat ->
  get2 (reverse m) (dims.1 - 1 - r) c = get2 m r c.
Proof.
  intros [Hl _] Hr. unfold get2.
  rewrite reverse_lookup by lia. rewrite Hl.
  by replace (dims.1 - S (dims.1 - 1 - r))%nat with r by lia.
Qed.

(** The pixels of the retina drawn from the distances [ds], on a cleared
    retina of the configured shape. *)
Lemma render_pixels (self : ArenaEnv) (ds : list float) (i : nat) (d : float) :
  has_shape (retina_dims self) (retina self) ->
  (i < width self)%nat -> ds !! i = Some d ->
  (i ∉ edges_in_retina self ->
   (valid self (row_b self d) = true ->
    get2 (render self ds) (Z.to_nat (row_b self d)) i = Some 1%float)
   /\ (valid self (row_h self d) = true ->
       get2 (render self ds) (Z.to_nat (row_h self d)) i = Some 1%float))
  /\ (i ∈ edges_in_retina self ->
      forall r, (r < height self)%nat ->
                (row_b self d < Z.of_nat r < row_h self d)%Z ->
                get2 (render self ds) r i = Some 1%float).
Proof.
  intros Hs Hi Hd. unfold render. split.
  - intros Hno. split; intros Hv; rewrite overlay_other by done.
    + apply mark_keep, mark_sets; try done.
      by rewrite list_lookup_fmap, Hd.
    + apply mark_sets; try done.
      * by apply mark_shape.
      * by rewrite list_lookup_fmap, Hd.
  - intros Hin r Hr [Hlo Hhi].
    rewrite overlay_corner.
    + unfold inner_wall. rewrite !list_lookup_fmap, Hd. simpl.
      apply Z.ltb_lt in Hlo, Hhi. by rewrite Hlo, Hhi.
    + done.
    + eapply get2_in_shape; [by apply mark_shape, mark_shape | done | done].
Qed.

(** C4, as the code has it. The buffer [step] returns is the retina with
    its rows reversed: row [r] of the retina is row [R_h - 1 - r] of the
    buffer. In the retina, every column [i] that is not a corner column
    has pixel [(b_i, i) = 1] when [0 <= b_i < R_h] and pixel
    [(h_i, i) = 1] when [0 <= h_i < R_h]; in a corner column the rows
    strictly between [b_i] and [h_i] are 1. *)
Theorem retina_pixels (self : ArenaEnv) (speed direction : float) (buf : matrix) :
  retina_ok self ->
  (step self speed direction).2 = inr buf ->
  let s := (step self speed direction).1 in
  buf = reverse (retina s)
  /\ (forall r c, (r < height s)%nat ->
                  get2 buf (height s - 1 - r) c = get2 (retina s) r c)
  /\ exists ds,
      distances s = inr ds /\ length ds = width s
      /\ forall i d,
          ds !! i = Some d ->
          (i ∉ edges_in_retina s ->
           (valid s (row_b s d) = true ->
            get2 (retina s) (Z.to_nat (row_b s d)) i = Some 1%float)
           /\ (valid s (row_h s d) = true ->
               get2 (retina s) (Z.to_nat (row_h s d)) i = Some 1%float))
          /\ (i ∈ edges_in_retina s ->
              forall r, (r < height s)%nat ->
                        (row_b s d < Z.of_nat r < row_h s d)%Z ->
                        get2 (retina s) r i = Some 1%float).
Proof.
  intros Hok Hret s.
  pose proof (step_retina_ok self speed direction Hok) as [Hshape _].
  fold s in Hshape. subst s. revert Hret Hshape. unfold step.
  destruct (move_retina self speed direction) as (Hr & Hd & _).
  destruct (width (move self speed direction)) eqn:Ew; [done|].
  set (s1 := set_retina (move self speed direction) _).
  destruct (distances s1) as [e | ds] eqn:Eds; [done|].
  destruct (horizon_fits s1); [|done].
  cbn [fst snd]. intros [= <-] Hshape. split; [reflexivity|].
  set (s2 := set_retina s1 (render s1 ds)) in *.
  split.
  { intros r c Hrow. by apply (get2_reverse (retina_dims s2)). }
  exists ds. split; [exact Eds|].
  assert (Hlen : length ds = width s2).
  { by apply (distances_length s1). }
  split; [exact Hlen|].
  intros i d Hi.
  apply (render_pixels s1 ds i d).
  - destruct Hok as [Hs _]. subst s1. cbn [retina retina_dims set_retina].
    rewrite Hr, Hd. by apply clear_shape.
  - apply lookup_lt_Some in Hi. by rewrite Hlen in Hi.
  - done.
Qed.

End Pixels.

Lemma sample_retina_ok : retina_ok Sample.arena.
Proof. apply (init_retina_ok (libm := Sample.libm) Sample.cfg), sample_init. Qed.

(** The first call on the sample arena returns its retina reversed. *)
Lemma retina_pixels_witness :
  retina_ok Sample.arena
  /\ exists buf,
      (Sample.step Sample.arena 0 0).2 = inr buf
      /\ buf = reverse (retina (Sample.step Sample.arena 0 0).1).
Proof.
  split; [exact sample_retina_ok|].
  set (buf := match (Sample.step Sample.arena 0 0).2 with
              | inr b => b
              | inl _ => []
              end).
  assert (E : (Sample.step Sample.arena 0 0).2 = inr buf)
    by (vm_compute; reflexivity).
  exists buf. split; [exact E|].
  exact (proj1 (retina_pixels (libm := Sample.libm) (geos := Sample.geos)
                  Sample.arena 0%float 0%float buf sample_retina_ok E)).
Defined.

(** C4 fails as stated. After the first call on the sample arena both
    columns have floor row 12 and ceiling row 28, inside the 50 rows, and
    column 1 is a corner column. In the returned buffer pixel (12, 0) is 0:
    the floor pixel of column 0 is at the reversed row 37. In the corner
    column the overlay cleared the floor and ceiling pixels: they are 0 in
    the retina (rows 12 and 28) and so in the buffer (rows 37 and 21). *)
Lemma corner_clears_boundary_pixels :
  let s := (Sample.step Sample.arena 0 0).1 in
  let d := 0x1.d3118052a55bcp+1%float in
  match (Sample.step Sample.arena 0 0).2 with
  | inr buf =>
      distances (libm := Sample.libm) (geos := Sample.geos) s = inr [d; d]
      /\ row_b s d = 12 /\ row_h s d = 28
      /\ edges_in_retina (libm := Sample.libm) s = [1%nat]
      /\ get2 buf 12 0 = Some 0%float /\ get2 buf 37 0 = Some 1%float
      /\ get2 (retina s) 12 1 = Some 0%float
      /\ get2 (retina s) 28 1 = Some 0%float
      /\ get2 buf 12 1 = Some 0%float /\ get2 buf 37 1 = Some 0%float
      /\ get2 buf 28 1 = Some 1%float /\ get2 buf 21 1 = Some 0%float
  | inl _ => False
  end.
Proof. vm_compute. repeat split; reflexivity. Qed.

(** * Further properties of the code *)

(** ** What a call keeps, and what it forgets *)

Section Frame.

Context {libm : Libm} {geos : Geos}.

Lemma move_frame (self : ArenaEnv) (speed direction : float) :
  let s := move self speed direction in
  wall_dist s = wall_dist self /\ wall_height s = wall_height self
  /\ num_walls s = num_walls self /\ retina_dims s = retina_dims self
  /\ retina_pov_horizon s = retina_pov_horizon self
  /\ retina_scale s = retina_scale self
  /\ agent_height s = agent_height self
  /\ agent_view_angle s = agent_view_angle self
  /\ agent_pov_dist s = agent_pov_dist self
  /\ walls s = walls self.
Proof. unfold move. by destruct (contains _ _). Qed.

(** X1. No sequence of [step] calls changes the configuration of the
    object: the distances, heights, scale, horizon, view angle, retina
    dimensions and the wall polygon stay as constructed; only position,
    direction and retina are written. *)
Theorem run_frame (self : ArenaEnv) (calls : list (float * float)) :
  let s := run self calls in
  wall_dist s = wall_dist self /\ wall_height s = wall_height self
  /\ num_walls s = num_walls self /\ retina_dims s = retina_dims self
  /\ retina_pov_horizon s = retina_pov_horizon self
  /\ retina_scale s = retina_scale self
  /\ agent_height s = agent_height self
  /\ agent_view_angle s = agent_view_angle self
  /\ agent_pov_dist s = agent_pov_dist self
  /\ walls s = walls self.
Proof.
  revert self. induction calls as [|c calls IH]; intros self; [done|].
  cbn zeta in *. change (run self (c :: calls))
    with (run (step self c.1 c.2).1 calls).
  destruct (IH (step self c.1 c.2).1)
    as (-> & -> & -> & -> & -> & -> & -> & -> & -> & ->).
  destruct (step_fst self c.1 c.2) as [m ->].
  apply (move_frame self c.1 c.2).
Qed.

Lemma clear_row (row : list float) :
  Forall (fun x => x = 0%float \/ x = 1%float) row ->
  map (fun x => x * 0)%float row = replicate (length row) 0%float.
Proof.
  induction 1 as [|x row Hx _ IH]; [done|].
  simpl. rewrite IH. by destruct Hx as [-> | ->].
Qed.

(** Clearing a well-formed retina gives the array of zeros. *)
Lemma clear_zeros (dims : nat * nat) (m : matrix) :
  has_shape dims m -> binary m -> clear m = zeros dims.
Proof.
  intros [Hl Hr] Hb. unfold zeros. rewrite <- Hl. clear Hl.
  induction m as [|row m IH]; [done|].
  apply Forall_cons in Hr as [Hrow Hr]. apply Forall_cons in Hb as [Hbrow Hb].
  simpl. rewrite (clear_row row Hbrow), Hrow.
  f_equal. by apply IH.
Qed.

Lemma step_ignores_retina
  (self : ArenaEnv) (m : matrix) (speed direction : float) :
  retina_ok self ->
  has_shape (retina_dims self) m -> binary m ->
  width self <> 0%nat ->
  step (set_retina self m) speed direction = step self speed direction.
Proof.
  intros [Hs Hb] Hms Hmb Hw. unfold step.
  assert (Hmove : move (set_retina self m) speed direction
                  = set_retina (move self speed direction) m).
  { unfold move. cbn [walls set_retina agent_direction].
    change (new_position (set_retina self m) speed direction)
      with (new_position self speed direction).
    by destruct (contains _ _). }
  rewrite Hmove.
  destruct (move_retina self speed direction) as (Hr & Hd & _).
  change (width (set_retina (move self speed direction) m))
    with (width (move self speed direction)).
  assert (Hwm : width (move self speed direction) = width self)
    by (unfold width; by rewrite Hd).
  destruct (width (move self speed direction)) eqn:Ew; [lia|].
  cbn [retina set_retina]. rewrite Hr.
  rewrite (clear_zeros _ _ Hms Hmb), (clear_zeros _ _ Hs Hb).
  by destruct (move self speed direction).
Qed.

(** X2. A call rewrites the retina from scratch: what it returns, and the
    object it leaves, do not depend on the previous contents of the
    retina. *)
Theorem step_forgets_retina
  (self : ArenaEnv) (m : matrix) (speed direction : float) :
  retina_ok self ->
  has_shape (retina_dims self) m -> binary m ->
  width self <> 0%nat ->
  step (set_retina self m) speed direction = step self speed direction.
Proof. apply step_ignores_retina. Qed.

(** X13. A call that leaves position and direction exactly as they were
    can be repeated: the same call made again returns the same buffer (or
    raises the same exception), the pose being all the buffer depends
    on. *)
Theorem unchanged_pose_same_result (self : ArenaEnv) (speed direction : float) :
  retina_ok self ->
  agent_position (step self speed direction).1 = agent_position self ->
  agent_direction (step self speed direction).1 = agent_direction self ->
  (step (step self speed direction).1 speed direction).2
  = (step self speed direction).2.
Proof.
  intros Hok Hp Hd.
  pose proof (step_retina_ok self speed direction Hok) as [Hs Hb].
  pose proof (step_retina_dims self speed direction) as Hdims.
  destruct (step_fst self speed direction) as [m Hm].
  rewrite Hm in Hp, Hd, Hs, Hb, Hdims |- *.
  assert (Hself : set_retina (move self speed direction) m = set_retina self m).
  { destruct (move_frame self speed direction)
      as (H1 & H2 & H3 & H4 & H5 & H6 & H7 & H8 & H9 & H10).
    cbn [agent_position agent_direction set_retina] in Hp, Hd.
    unfold set_retina. by rewrite H1, H2, H3, H4, H5, H6, H7, H8, H9, H10, Hp, Hd. }
  rewrite Hself in Hs, Hb, Hdims |- *.
  cbn [retina retina_dims set_retina] in Hs, Hb.
  destruct (width self) as [|n] eqn:En.
  - unfold step.
    assert (Hw0 : forall s, width s = 0%nat ->
                            width (move s speed direction) = 0%nat).
    { intros s Hw. unfold width in *.
      by destruct (move_retina s speed direction) as (_ & -> & _). }
    rewrite (Hw0 (set_retina self m)), (Hw0 self); done.
  - rewrite step_ignores_retina; [done | done | done | done | lia].
Qed.

End Frame.

Lemma step_forgets_retina_witness :
  let m := retina (Sample.step Sample.arena 0 0).1 in
  Sample.step (set_retina Sample.arena m) 0 0 = Sample.step Sample.arena 0 0.
Proof.
  apply (step_forgets_retina (libm := Sample.libm) (geos := Sample.geos)).
  - exact sample_retina_ok.
  - apply (step_retina_ok (libm := Sample.libm) (geos := Sample.geos)
             Sample.arena 0%float 0%float sample_retina_ok).
  - apply (step_retina_ok (libm := Sample.libm) (geos := Sample.geos)
             Sample.arena 0%float 0%float sample_retina_ok).
  - vm_compute. lia.
Defined.

(** [step(0, 0)] on the sample arena moves nothing. *)
Lemma unchanged_pose_same_result_witness :
  (Sample.step (Sample.step Sample.arena 0 0).1 0 0).2
  = (Sample.step Sample.arena 0 0).2.
Proof.
  apply (unchanged_pose_same_result (libm := Sample.libm) (geos := Sample.geos)).
  - exact sample_retina_ok.
  - vm_compute. reflexivity.
  - vm_compute. reflexivity.
Defined.

(** ** What a call leaves when it raises *)

Section Outcome.

Context {libm : Libm} {geos : Geos}.

(** X4. A raising call never rolls the motion back. Whatever the
    exception, the object left has the position and direction of the
    motion update; its retina is untouched when the retina has no column
    (the [ZeroDivisionError] of line 115) and already cleared in every
    other case. *)
Theorem step_raises_cases (self : ArenaEnv) (speed direction : float) (e : exn) :
  (step self speed direction).2 = inl e ->
  (e = ZeroDivisionError /\ width self = 0%nat
   /\ (step self speed direction).1 = move self speed direction)
  \/ (width self <> 0%nat
      /\ (step self speed direction).1
         = set_retina (move self speed direction) (clear (retina self))).
Proof.
  destruct (move_retina self speed direction) as (Hr & Hd & Hwl).
  assert (Hm : width (move self speed direction) = width self)
    by (unfold width; by rewrite Hd).
  unfold step. rewrite Hm, Hr.
  destruct (width self) as [|n] eqn:En.
  - cbn [fst snd]. intros [= <-]. by left.
  - set (s1 := set_retina _ _).
    destruct (distances s1) as [e' | ds]; [|destruct (horizon_fits s1)];
      cbn [fst snd]; try done; intros _; by right.
Qed.

End Outcome.

Lemma step_raises_cases_witness :
  (step (libm := Sample.libm) (geos := Sample.no_geos) Sample.arena 0 0).1
  = set_retina (move (libm := Sample.libm) Sample.arena 0 0)
      (clear (retina Sample.arena)).
Proof.
  destruct (step_raises_cases (libm := Sample.libm) (geos := Sample.no_geos)
              Sample.arena 0%float 0%float ValueError)
    as [(H & _) | (_ & H)].
  - vm_compute. reflexivity.
  - discriminate H.
  - exact H.
Defined.

(** ** Every pixel of the retina *)

Section EveryPixel.

Context {libm : Libm} {geos : Geos}.

Lemma get2_set2_other (m : matrix) (r c r' c' : nat) (v : float) :
  ~ (r = r' /\ c = c') -> get2 (set2 r c v m) r' c' = get2 m r' c'.
Proof.
  intros Hne. unfold get2, set2. rewrite list_lookup_alter.
  destruct (decide (r = r')) as [<- | Hr]; [|done].
  destruct (m !! r) as [row|]; simpl; [|done].
  apply list_lookup_insert_ne. naive_solver.
Qed.

(** [mark] leaves alone every pixel that is not the valid row of its
    column. *)
Lemma mark_untouched (self : ArenaEnv) (rows : list Z) (m : matrix) (r c : nat) :
  marked self rows r c = false -> get2 (mark self rows m) r c = get2 m r c.
Proof.
  intros Hm. unfold mark.
  assert (H : forall i b, (i, b) ∈ zip (seq 0 (length rows)) rows ->
                          valid self b = true -> ~ (Z.to_nat b = r /\ i = c)).
  { intros i b Hin Hv [<- <-].
    apply list_elem_of_lookup in Hin as [k Hk].
    apply lookup_zip_Some in Hk as [Hk1 Hk2].
    apply lookup_seq in Hk1 as [-> _].
    unfold marked in Hm. simpl in Hm. rewrite Hk2, Hv in Hm.
    by rewrite bool_decide_eq_true_2 in Hm. }
  revert H. generalize (zip (seq 0 (length rows)) rows). intros l.
  revert m. induction l as [|[i b] l IH]; intros m H; [done|].
  simpl. rewrite IH.
  - destruct (valid self b) eqn:Hv; [|done].
    apply get2_set2_other. apply (H i b); [by left | done].
  - intros i' b' Hin. apply H. by right.
Qed.

Lemma mark_exact (self : ArenaEnv) (rows : list Z) (m : matrix) (r c : nat) (x : float) :
  has_shape (retina_dims self) m ->
  get2 m r c = Some x ->
  get2 (mark self rows m) r c
  = Some (if marked self rows r c then 1%float else x).
Proof.
  intros Hs Hx. destruct (marked self rows r c) eqn:Hm.
  - unfold marked in Hm. destruct (rows !! c) as [b|] eqn:Hb; [|done].
    apply andb_prop in Hm as [Hv Hr]. apply bool_decide_eq_true in Hr as <-.
    apply mark_sets; try done.
    destruct Hs as [_ Hrows]. unfold get2 in Hx.
    destruct (m !! Z.to_nat b) as [row|] eqn:Erow; [|done]. simpl in Hx.
    apply lookup_lt_Some in Hx.
    by rewrite (Forall_lookup_1 _ _ _ _ Hrows Erow) in Hx.
  - by rewrite mark_untouched.
Qed.

Lemma get2_zeros (dims : nat * nat) (r c : nat) :
  (r < dims.1)%nat -> (c < dims.2)%nat -> get2 (zeros dims) r c = Some 0%float.
Proof.
  intros Hr Hc. unfold get2, zeros.
  rewrite lookup_replicate_2 by done. simpl. by rewrite lookup_replicate_2.
Qed.

(** The retina drawn on an array of zeros, pixel by pixel. *)
Lemma render_exact (self : ArenaEnv) (ds : list float) (r i : nat) :
  retina self = zeros (retina_dims self) ->
  (r < height self)%nat -> (i < width self)%nat ->
  get2 (render self ds) r i = Some (of_bool (pixel self ds r i)).
Proof.
  intros Hz Hr Hi. unfold render, pixel.
  assert (Hs : has_shape (retina_dims self) (retina self))
    by (rewrite Hz; apply zeros_shape).
  assert (Hmarks :
            get2 (mark self (map (row_h self) ds)
                    (mark self (map (row_b self) ds) (retina self))) r i
            = Some (of_bool (marked self (map (row_b self) ds) r i
                             || marked self (map (row_h self) ds) r i))).
  { rewrite (mark_exact self _ _ r i
               (if marked self (map (row_b self) ds) r i then 1%float else 0%float)).
    - by destruct (marked self (map (row_h self) ds) r i),
           (marked self (map (row_b self) ds) r i).
    - by apply mark_shape.
    - apply mark_exact; [done|]. rewrite Hz. by apply get2_zeros. }
  destruct (bool_decide (i ∈ edges_in_retina self)) eqn:E.
  - apply bool_decide_eq_true in E. apply overlay_corner; [done|].
    by rewrite Hmarks.
  - apply bool_decide_eq_false in E. by rewrite overlay_other.
Qed.

(** The retina and the buffer after a returning call, pixel by pixel. *)
Lemma step_pixels_all (self : ArenaEnv) (speed direction : float) (buf : matrix) :
  retina_ok self ->
  (step self speed direction).2 = inr buf ->
  let s := (step self speed direction).1 in
  exists ds,
    distances s = inr ds
    /\ forall r i, (r < height s)%nat -> (i < width s)%nat ->
         get2 (retina s) r i = Some (of_bool (pixel s ds r i))
         /\ get2 buf (height s - 1 - r) i = Some (of_bool (pixel s ds r i)).
Proof.
  intros Hok Hret s.
  pose proof (step_retina_ok self speed direction Hok) as [Hshape _].
  fold s in Hshape. subst s. revert Hret Hshape. unfold step.
  destruct (move_retina self speed direction) as (Hr & Hd & _).
  destruct (width (move self speed direction)) eqn:Ew; [done|].
  set (s1 := set_retina (move self speed direction) _).
  destruct (distances s1) as [e | ds] eqn:Eds; [done|].
  destruct (horizon_fits s1); [|done].
  cbn [fst snd]. intros [= <-] Hshape.
  exists ds. split; [exact Eds|].
  intros r i Hrow Hcol.
  assert (Hpix : get2 (render s1 ds) r i = Some (of_bool (pixel s1 ds r i))).
  { apply render_exact; [|done|done].
    subst s1. cbn [retina retina_dims set_retina]. rewrite Hr, Hd.
    destruct Hok as [Hs Hb]. by apply clear_zeros. }
  split; [exact Hpix|].
  transitivity (get2 (render s1 ds) r i); [|exact Hpix].
  by apply (get2_reverse (retina_dims (set_retina s1 (render s1 ds)))).
Qed.

(** X5. Every pixel of a returned buffer. With [ds] the distances of the
    rays, a returning [step] leaves in row [r], column [i] of the retina
    the value [pixel]: in a corner column 1 exactly strictly between the
    floor and ceiling rows - so the overlay clears the floor and ceiling
    marks of that column - and in any other column 1 exactly at the floor
    row and at the ceiling row, when these lie in the retina. The buffer
    returned holds the same value in row [R_h - 1 - r]. *)
Theorem step_pixels (self : ArenaEnv) (speed direction : float) (buf : matrix) :
  retina_ok self ->
  (step self speed direction).2 = inr buf ->
  let s := (step self speed direction).1 in
  exists ds,
    distances s = inr ds
    /\ forall r i, (r < height s)%nat -> (i < width s)%nat ->
         get2 (retina s) r i = Some (of_bool (pixel s ds r i))
         /\ get2 buf (height s - 1 - r) i = Some (of_bool (pixel s ds r i)).
Proof. apply step_pixels_all. Qed.

(** X6. Clipping: a column that is not a corner column and whose floor
    and ceiling rows both fall outside the retina is left entirely 0; no
    error is raised for it. *)
Theorem step_clips_column
  (self : ArenaEnv) (speed direction : float) (buf : matrix) (i : nat) :
  retina_ok self ->
  (step self speed direction).2 = inr buf ->
  let s := (step self speed direction).1 in
  (i < width s)%nat ->
  i ∉ edges_in_retina s ->
  (forall ds d, distances s = inr ds -> ds !! i = Some d ->
                valid s (row_b s d) = false /\ valid s (row_h s d) = false) ->
  forall r, (r < height s)%nat -> get2 (retina s) r i = Some 0%float.
Proof.
  intros Hok Hret s Hi Hno Hrows r Hr.
  destruct (step_pixels_all self speed direction buf Hok Hret) as (ds & Hds & Hpix).
  fold s in Hds, Hpix.
  destruct (Hpix r i Hr Hi) as [-> _]. f_equal.
  unfold pixel. rewrite bool_decide_eq_false_2 by done.
  unfold marked. rewrite !list_lookup_fmap.
  destruct (ds !! i) as [d|] eqn:Ed; [|done]. simpl.
  destruct (Hrows ds d Hds Ed) as [-> ->]. done.
Qed.

End EveryPixel.

Lemma step_pixels_witness :
  retina_ok Sample.arena
  /\ exists buf,
      (Sample.step Sample.arena 0 0).2 = inr buf
      /\ let s := (Sample.step Sample.arena 0 0).1 in
         exists ds,
           distances (libm := Sample.libm) (geos := Sample.geos) s = inr ds
           /\ get2 buf (height s - 1 - 12) 1
              = Some (of_bool (pixel (libm := Sample.libm) s ds 12 1)).
Proof.
  split; [exact sample_retina_ok|].
  set (buf := match (Sample.step Sample.arena 0 0).2 with
              | inr b => b
              | inl _ => []
              end).
  assert (E : (Sample.step Sample.arena 0 0).2 = inr buf)
    by (vm_compute; reflexivity).
  exists buf. split; [exact E|].
  destruct (step_pixels (libm := Sample.libm) (geos := Sample.geos)
              Sample.arena 0%float 0%float buf sample_retina_ok E)
    as (ds & Hds & Hpix).
  exists ds. split; [exact Hds|].
  apply Hpix; vm_compute; lia.
Defined.

(** The sample arena with a retina of 10 rows only: the rows 12 and 28 of
    its columns fall outside, and column 0, not a corner column, stays 0. *)
Lemma step_clips_column_witness :
  let a := set_retina
             (mkArenaEnv 5 1 4 (10%nat, 2%nat) [] 20 0x1.0624dd2f1a9fcp-7
                (0, 0)%float 0.5 1 0.5 0 (walls Sample.arena))
             (zeros (10%nat, 2%nat)) in
  Forall (fun r => get2 (retina (Sample.step a 0 0).1) r 0 = Some 0%float)
    (seq 0 10).
Proof.
  intros a. apply Forall_forall. intros r Hr. apply elem_of_seq in Hr.
  assert (Hlt : (r < 10)%nat) by lia. clear Hr. revert r Hlt.
  assert (Hok : retina_ok a) by (split; [apply zeros_shape | apply zeros_binary]).
  set (buf := match (Sample.step a 0 0).2 with
              | inr b => b
              | inl _ => []
              end).
  assert (E : (Sample.step a 0 0).2 = inr buf) by (vm_compute; reflexivity).
  apply (step_clips_column (libm := Sample.libm) (geos := Sample.geos)
           a 0%float 0%float buf 0 Hok E).
  - vm_compute. lia.
  - assert (He : edges_in_retina (libm := Sample.libm)
                   (step (libm := Sample.libm) (geos := Sample.geos) a 0 0).1
                 = [1%nat]) by (vm_compute; reflexivity).
    rewrite He. apply not_elem_of_cons. split; [lia | apply not_elem_of_nil].
  - intros ds d Hds Hd.
    assert (Hs : distances (libm := Sample.libm) (geos := Sample.geos)
                   (step (libm := Sample.libm) (geos := Sample.geos) a 0 0).1
                 = inr [0x1.d3118052a55bcp+1; 0x1.d3118052a55bcp+1]%float)
      by (vm_compute; reflexivity).
    rewrite Hs in Hds. injection Hds as <-. injection Hd as <-.
    vm_compute. split; reflexivity.
Defined.

(** ** Distances that give no row *)

Section NoRow.

#[local] Open Scope Z_scope.

Lemma invalid_negative (self : ArenaEnv) (r : Z) : r < 0 -> valid self r = false.
Proof.
  intros H. unfold valid. by destruct (Z.leb_spec 0 r); [lia|].
Qed.

(** X7. A distance for which the quotient [pov / retina_scale] is not a
    finite number - a zero distance, whose division gives an infinity, or
    a NaN - draws nothing and raises nothing: the cast gives the least
    64-bit integer, and with a horizon row that is not negative both rows
    come out negative, outside the retina. *)
Theorem nonfinite_rows_invalid (self : ArenaEnv) (d : float) :
  0 <= retina_pov_horizon self <= int64_max ->
  (trunc (pov_base self d / retina_scale self) = None ->
   valid self (row_b self d) = false)
  /\ (trunc (pov_height self d / retina_scale self) = None ->
      valid self (row_h self d) = false).
Proof.
  intros Hh. unfold int64_max in Hh.
  split; intros Ht; apply invalid_negative;
    unfold row_b, row_h, astype_int; rewrite Ht;
    unfold wrap64, int64_min.
  - replace (retina_pov_horizon self - - 2 ^ 63 + 2 ^ 63)
      with (retina_pov_horizon self + 1 * 2 ^ 64) by lia.
    rewrite Z.mod_add by lia. rewrite Z.mod_small; lia.
  - replace (retina_pov_horizon self + - 2 ^ 63 + 2 ^ 63)
      with (retina_pov_horizon self) by lia.
    rewrite Z.mod_small; lia.
Qed.

End NoRow.

(** On the sample arena a distance of 0 gives infinite quotients. *)
Lemma nonfinite_rows_invalid_witness :
  valid Sample.arena (row_b Sample.arena 0) = false
  /\ valid Sample.arena (row_h Sample.arena 0) = false.
Proof.
  destruct (nonfinite_rows_invalid Sample.arena 0%float) as [Hb Hh].
  - vm_compute. split; intros H; discriminate H.
  - split; [apply Hb | apply Hh]; vm_compute; reflexivity.
Defined.

(** ** Angles *)

Section Angles.

Context {libm : Libm}.

#[local] Open Scope float_scope.

(** The reduction of an angle of magnitude below [2 * pi]: zero gives
    [0], a negative angle is moved up by one turn, any other is kept. *)
Lemma mod_two_pi_small (a : float) :
  (abs a <? two_pi) = true ->
  mod_ a two_pi = if a =? 0 then 0 else if a <? 0 then a + two_pi else a.
Proof.
  rewrite ltb_spec, abs_spec, Prim2SF_two_pi. intros Ha.
  unfold mod_, fmod. rewrite Prim2SF_two_pi.
  destruct (Prim2SF a) as [s | s | | s m e] eqn:E; try discriminate.
  - assert (Hz : (a =? 0) = true) by (rewrite FloatAxioms.eqb_spec, E; reflexivity).
    by rewrite Hz.
  - assert (Hlt : (abs a <? abs two_pi) = true).
    { rewrite ltb_spec, !abs_spec, E, Prim2SF_two_pi. exact Ha. }
    rewrite Hlt.
    assert (Hz : (a =? 0) = false)
      by (rewrite FloatAxioms.eqb_spec, E; by destruct s).
    assert (Hr : (a =? a) = true).
    { rewrite FloatAxioms.eqb_spec, E. apply SFeqb_finite_refl. }
    rewrite Hz. unfold is_nan. rewrite Hr. cbn [negb].
    change (two_pi <? 0) with false. reflexivity.
Qed.

(** X8. [find_angle] wraps the bearing [arctan2(dy, dx)] of the second
    point from the first into a turn: for a bearing of magnitude below
    [2 * pi] (as any arc tangent is) it returns [0] for a zero bearing, the
    bearing plus [2 * pi] for a negative one and the bearing itself
    otherwise. *)
Theorem find_angle_wraps (p1 p2 : point) :
  let a := arctan2 (p2.2 - p1.2) (p2.1 - p1.1) in
  (abs a <? two_pi) = true ->
  find_angle p1 p2 = if a =? 0 then 0 else if a <? 0 then a + two_pi else a.
Proof. intros a Ha. unfold find_angle. by apply mod_two_pi_small. Qed.

End Angles.

(** The bearing of the fourth corner of the sample arena from the origin,
    -2.356..., is wrapped to 3.926.... *)
Lemma find_angle_wraps_witness :
  find_angle (libm := Sample.libm) (0, 0)%float
    (-0x1.c48c6001f0ac2p+1, -0x1.c48c6001f0abfp+1)%float
  = (-0x1.2d97c7f3321d3p+1 + two_pi)%float.
Proof.
  rewrite (find_angle_wraps (libm := Sample.libm)); vm_compute; reflexivity.
Defined.

(** ** The constructed ring *)

Section Ring.

Context {libm : Libm} {geos : Geos}.

(** What a successful construction tells about the shell and the ring. *)
Lemma init_walls (c : config) (self : ArenaEnv) :
  init c = inr self ->
  exists p n,
    Z.to_nat (cfg_num_walls c) = S (S n) /\ 2 <= cfg_num_walls c
    /\ head (wall_coords c) = Some p /\ last (wall_coords c) = Some p
    /\ length (wall_coords c) = S (S (S n))
    /\ walls self
       = if (length (wall_coords c) =? 3)%nat
         then wall_coords c ++ [p] else wall_coords c.
Proof.
  unfold init.
  destruct (_ || _); [done|].
  destruct (Z.eqb_spec (cfg_num_walls c) 0) as [He | Hne]; [done|].
  destruct (Z.ltb_spec (cfg_num_walls c) 0) as [Hlt | Hge]; [done|].
  destruct (Z.to_nat (cfg_num_walls c)) as [|[|n]] eqn:En; [lia| |].
  - unfold wall_coords. rewrite En. done.
  - destruct (wall_coords_closed c (S n) En) as (p & Hh & Hl).
    pose proof (wall_coords_length c (S n) En) as Hlen.
    rewrite (Polygon_closed_shell (wall_coords c) p Hh Hl) by lia.
    destruct (point_eqb p p); [|done]. simpl. intros [= <-]. cbn [walls].
    exists p, n. repeat split; try done. lia.
Qed.

(** X9. The ring of a constructed arena. Construction succeeds only with
    two walls or more, and the wall polygon ends where it starts. With
    three walls or more it is the [num_walls] computed corners followed
    by the first corner again: [num_walls + 1] coordinates, and [step]
    measures bearings to exactly [num_walls] vertices. With two walls the
    first corner is appended once more: four coordinates, and [step]
    measures three bearings. *)
Theorem init_ring (c : config) (self : ArenaEnv) :
  init c = inr self ->
  2 <= cfg_num_walls c
  /\ head (walls self) = last (walls self)
  /\ (3 <= cfg_num_walls c ->
      walls self = wall_coords c
      /\ length (walls self) = S (Z.to_nat (cfg_num_walls c))
      /\ length (vertices self) = Z.to_nat (cfg_num_walls c))
  /\ (cfg_num_walls c = 2 ->
      exists p, head (wall_coords c) = Some p
                /\ walls self = wall_coords c ++ [p]
                /\ length (vertices self) = 3%nat).
Proof.
  intros Hinit.
  destruct (init_walls c self Hinit) as (p & n & En & HN & Hh & Hl & Hlen & Hw).
  split; [done|]. unfold vertices. rewrite Hw, Hlen. split; [|split].
  - destruct (S (S (S n)) =? 3)%nat.
    + rewrite last_snoc. by destruct (wall_coords c).
    + by rewrite Hh, Hl.
  - intros H3. destruct (Nat.eqb_spec (S (S (S n))) 3) as [E | _]; [lia|].
    rewrite removelast_firstn_len, length_take, Hlen, En. repeat split; lia.
  - intros H2. destruct (Nat.eqb_spec (S (S (S n))) 3) as [_ | E]; [|lia].
    exists p. split; [done|]. split; [done|].
    rewrite removelast_last, Hlen. lia.
Qed.

Lemma exact_version_closed (w : ring) (r : list epoint) :
  closed w -> exact_ring w = Some r -> closed r.
Proof.
  intros (p & Hh & Hl) Hr.
  assert (Hlast : forall (w : ring) r p,
             exact_ring w = Some r -> last w = Some p ->
             exists q, exact_point p = Some q /\ last r = Some q).
  { clear. induction w as [|a w IH]; intros r p Hr Hl; [done|].
    simpl in Hr. destruct (exact_point a) as [qa|] eqn:Ea; [|done].
    destruct (exact_ring w) as [qs|] eqn:Ew; [|done].
    injection Hr as <-. destruct w as [|b w].
    - simpl in Hl. injection Hl as <-. simpl in Ew. injection Ew as <-.
      by exists qa.
    - change (last (a :: b :: w)) with (last (b :: w)) in Hl.
      destruct (IH qs p eq_refl Hl) as (q & Hq & Hlq).
      exists q. split; [done|].
      destruct qs as [|q0 qs]; [done|]. exact Hlq. }
  destruct (Hlast w r p Hr Hl) as (q & Hq & Hlq).
  exists q. split; [|done].
  destruct w as [|a w]; [done|]. simpl in Hh. injection Hh as ->.
  simpl in Hr. rewrite Hq in Hr.
  destruct (exact_ring w); [|done]. by injection Hr as <-.
Qed.

(** X10. Every constructed arena has a closed ring, so its containment
    test is strict without further assumption: if it contains the origin,
    no sequence of [step] calls ever puts the agent on a wall. *)
Theorem constructed_arena_strict (c : config) (self : ArenaEnv) :
  init c = inr self ->
  ring_closed (walls self)
  /\ (contains (walls self) (0, 0)%float = true ->
      forall calls, ~ on_boundary (walls self) (agent_position (run self calls))).
Proof.
  intros Hinit.
  assert (Hcl : ring_closed (walls self)).
  { destruct (init_walls c self Hinit) as (p & n & _ & _ & Hh & Hl & _ & Hw).
    intros r Hr. apply (exact_version_closed (walls self)); [|done].
    rewrite Hw. exists p. destruct (_ =? _)%nat; [|done].
    split; [by destruct (wall_coords c) | apply last_snoc]. }
  split; [exact Hcl|].
  intros H0 calls Hon.
  destruct (init_pose c self Hinit) as [Hp _].
  pose proof (run_inside self calls) as Hin.
  rewrite Hp, run_walls in Hin. specialize (Hin H0).
  by rewrite (contains_excludes_boundary _ _ Hcl Hon) in Hin.
Qed.

End Ring.

Lemma init_ring_witness :
  walls Sample.arena = wall_coords (libm := Sample.libm) Sample.cfg
  /\ length (vertices Sample.arena) = 4%nat.
Proof.
  destruct (init_ring (libm := Sample.libm) Sample.cfg Sample.arena)
    as (_ & _ & H3 & _).
  - vm_compute; reflexivity.
  - destruct H3 as (H1 & _ & H2); [vm_compute; discriminate|].
    split; [exact H1 | exact H2].
Defined.

Lemma constructed_arena_strict_witness :
  ~ on_boundary (walls Sample.arena)
      (agent_position (Sample.run Sample.arena [(0, 0); (100, 0)]%float)).
Proof.
  destruct (constructed_arena_strict (libm := Sample.libm) (geos := Sample.geos)
              Sample.cfg Sample.arena) as [_ H].
  - vm_compute; reflexivity.
  - apply H. vm_compute; reflexivity.
Defined.

(** ** Slices across the seam *)

Section Seam.

Context {libm : Libm}.

Lemma SFltb_key (f1 f2 : spec_float) :
  SFltb f1 f2 = true
  <-> exists k1 k2, sf_key f1 = Some k1 /\ sf_key f2 = Some k2 /\ key_lt k1 k2.
Proof.
  unfold SFltb, SFcompare, key_lt.
  destruct f1 as [[]|[]| |[] m1 e1], f2 as [[]|[]| |[] m2 e2]; cbn [sf_key];
    try change (Pos.compare_cont Eq m1 m2) with (m1 ?= m2)%positive;
    try (destruct (Z.compare_spec e1 e2); try destruct (Pos.compare_spec m1 m2));
    cbn [CompOpp];
    (split;
     [ intros Hltb;
       first [ discriminate Hltb
             | eexists _, _; split; [reflexivity|]; split; [reflexivity|];
               cbn [fst snd]; lia ]
     | intros (k1 & k2 & Hk1 & Hk2 & Hlt);
       first [ discriminate Hk1
             | discriminate Hk2
             | injection Hk1 as <-; injection Hk2 as <-; cbn [fst snd] in Hlt;
               first [reflexivity | lia] ] ]).
Qed.

(** The strict comparison of floats is transitive. *)
Lemma ltb_trans (a b c : float) :
  (a <? b)%float = true -> (b <? c)%float = true -> (a <? c)%float = true.
Proof.
  rewrite !ltb_spec, !SFltb_key.
  intros (k1 & k2 & H1 & H2 & H12) (k2' & k3 & H2' & H3 & H23).
  rewrite H2 in H2'. injection H2' as <-.
  exists k1, k3. split; [done|]. split; [done|].
  unfold key_lt in *. lia.
Qed.

(** X11. A column whose slice straddles the seam of the turn, its wrapped
    lower bound not below its wrapped upper bound, is never a corner
    column, wherever the vertices are: no angle lies between the two
    bounds under the plain comparison. *)
Theorem seam_slice_never_corner (self : ArenaEnv) (i : nat) :
  (lower_bound self i <? upper_bound self i)%float = false ->
  i ∉ edges_in_retina self.
Proof.
  intros Hseam Hin.
  unfold edges_in_retina in Hin.
  apply list_elem_of_In, in_flat_map in Hin as (j & _ & Hin).
  apply in_flat_map in Hin as (ad & _ & Hi).
  destruct (edge self j ad) eqn:E; [|done].
  destruct Hi as [<- | []].
  apply andb_prop in E as [Hlo Hup].
  by rewrite (ltb_trans _ _ _ Hlo Hup) in Hseam.
Qed.

End Seam.

(** Column 0 of the sample arena spans the bearings from 5.78 to 0. *)
Lemma seam_slice_never_corner_witness :
  0%nat ∉ edges_in_retina (libm := Sample.libm) Sample.arena.
Proof.
  apply (seam_slice_never_corner (libm := Sample.libm)).
  vm_compute. reflexivity.
Defined.

(** ** The graphical subclass *)

Section Display.

Context {libm : Libm} {geos : Geos}.

Lemma shade_shape (dims : nat * nat) (m : matrix) :
  has_shape dims m -> has_shape dims (shade m).
Proof.
  intros [Hl Hr]. unfold shade. split; [by rewrite length_map|].
  apply Forall_fmap. eapply Forall_impl; [exact Hr|].
  intros row Hrow. simpl. by rewrite length_map.
Qed.

Lemma shade_levels (m : matrix) :
  binary m ->
  Forall (Forall (fun x => x = 0x1.999999999999ap-3%float \/ x = 1%float))
    (shade m).
Proof.
  intros H. unfold shade. apply Forall_fmap. eapply Forall_impl; [exact H|].
  intros row Hrow. simpl. apply Forall_fmap.
  eapply Forall_impl; [exact Hrow|].
  intros x [-> | ->]; [left | right]; reflexivity.
Qed.

Lemma get2_shade (m : matrix) (r c : nat) :
  get2 (shade m) r c
  = (fun x => 0x1.999999999999ap-3 + 0x1.999999999999ap-1 * x)%float
      <$> get2 m r c.
Proof.
  unfold get2, shade. rewrite list_lookup_fmap.
  destruct (m !! r) as [row|]; [|done]. simpl. by rewrite list_lookup_fmap.
Qed.

(** X12. [GraphArena.step] moves the simulator exactly as [ArenaEnv.step]
    does. When that call returns, the image shown has the shape of the
    retina, with level 0.2 for a pixel 0 and 1.0 for a pixel 1, and shows
    the retina itself, not the returned buffer: image row [r] is buffer
    row [R_h - 1 - r]; the marker is at the agent's position, inside the
    walls if the agent was. When that call raises, the exception passes
    through and the image, marker and nose are left as they were, though
    the simulator's pose may have moved. *)
Theorem graph_step_outcome (g : GraphArena) (speed direction : float) :
  retina_ok (env g) ->
  let r := step (env g) speed direction in
  let g' := (graph_step g speed direction).1 in
  env g' = r.1
  /\ (forall buf,
         r.2 = inr buf ->
         (graph_step g speed direction).2 = inr tt
         /\ has_shape (retina_dims (env g)) (g_retina g')
         /\ Forall (Forall (fun x => x = 0x1.999999999999ap-3%float \/ x = 1%float))
              (g_retina g')
         /\ (forall row c, (row < height (env g))%nat ->
               get2 (g_retina g') row c
               = (fun x => 0x1.999999999999ap-3 + 0x1.999999999999ap-1 * x)%float
                   <$> get2 buf (height (env g) - 1 - row) c)
         /\ g_agent g' = agent_position (env g')
         /\ (contains (walls (env g)) (agent_position (env g)) = true ->
             contains (walls (env g')) (g_agent g') = true))
  /\ (forall e,
         r.2 = inl e ->
         (graph_step g speed direction).2 = inl e
         /\ g_retina g' = g_retina g /\ g_agent g' = g_agent g
         /\ g_agent_nose g' = g_agent_nose g).
Proof.
  intros Hok r g'.
  pose proof (step_retina_ok (env g) speed direction Hok) as [Hs Hb].
  pose proof (step_retina_dims (env g) speed direction) as Hd.
  fold r in Hs, Hb, Hd. subst g'. unfold graph_step. fold r.
  split; [by destruct r.2|]. split.
  - intros buf Hbuf. rewrite Hbuf. cbn [fst snd env g_retina g_agent].
    split; [done|]. rewrite <- Hd.
    split; [by apply shade_shape|]. split; [by apply shade_levels|].
    split; [|split; [done|]].
    + intros row c Hrow. rewrite get2_shade. f_equal.
      rewrite (step_returns_reverse _ _ _ _ Hbuf). fold r.
      unfold height in *. rewrite <- Hd in Hrow |- *.
      symmetry. by apply (get2_reverse (retina_dims r.1)).
    + intros Hin. by apply step_inside.
  - intros e He. by rewrite He.
Qed.

End Display.

Lemma graph_step_outcome_witness :
  let g := mkGraphArena Sample.arena (zeros (50%nat, 2%nat)) (0, 0)%float
             ([0; 0x1.47ae147ae147bp-7], [0; 0])%float in
  env (graph_step (libm := Sample.libm) (geos := Sample.geos) g 0 0).1
  = (Sample.step Sample.arena 0 0).1.
Proof.
  intros g.
  exact (proj1 (graph_step_outcome (libm := Sample.libm) (geos := Sample.geos)
                  g 0%float 0%float sample_retina_ok)).
Defined.
